(** * Receipt field extraction (api/services/ocr_service.py, api/routers/receipts.py)

    A shallow embedding of the receipt parsing code of the ShopSavvy backend
    and the properties its specification states about it.

    Conventions of the embedding.
    - A Python [str] is a [list ascii]; the 256 characters are read as the
      code points U+0000..U+00FF, and the classes [\d], [\s], [\w],
      [str.strip] and [str.lower] are Python's on that range.
    - The [re] functions the code calls ([re.match], [re.search],
      [re.findall], [re.sub]) are a backtracking matcher over a syntax tree of
      the pattern; the result list of [run] is in the priority order of the
      backtracking search, so its head is the match Python reports.
    - A Python [float] obtained from a decimal token is the rational the
      token denotes ([Q]); rounding to the nearest double is monotone, so
      order tests agree up to one rounding step at a bound.
    - [cv2] and [pytesseract] are parameters of the pipeline. *)

From Stdlib Require Import Ascii String List Bool Arith Lia ZArith QArith.
From Stdlib Require Import DecimalString DecimalNat.
Import ListNotations.

Local Open Scope list_scope.
Local Open Scope nat_scope.

(** ** Characters and strings *)

Definition str := list ascii.

Definition s2l (s : string) : str := list_ascii_of_string s.

Definition code (c : ascii) : nat := nat_of_ascii c.

Definition between (lo hi n : nat) : bool := (lo <=? n) && (n <=? hi).

(** [\d] : the decimal digits. *)
Definition is_digit (c : ascii) : bool := between 48 57 (code c).

(** [\s] and [str.isspace]: TAB..CR, FS..US, space, NEL, NBSP. *)
Definition is_space (c : ascii) : bool :=
  let n := code c in
  between 9 13 n || between 28 32 n || (n =? 133) || (n =? 160).

(** [\w]: alphanumeric characters and the underscore. *)
Definition is_word (c : ascii) : bool :=
  let n := code c in
  between 48 57 n || between 65 90 n || (n =? 95) || between 97 122 n
  || (n =? 170) || between 178 179 n || (n =? 181) || between 185 186 n
  || between 188 190 n || between 192 214 n || between 216 246 n
  || between 248 255 n.

(** [str.lower] on one character. *)
Definition lower_char (c : ascii) : ascii :=
  let n := code c in
  if between 65 90 n || between 192 214 n || between 216 222 n
  then ascii_of_nat (n + 32) else c.

Definition lower (s : str) : str := map lower_char s.

Definition nl : ascii := ascii_of_nat 10.

Definition ascii_eqb (a b : ascii) : bool := Ascii.eqb a b.

Fixpoint lstrip (s : str) : str :=
  match s with
  | c :: s' => if is_space c then lstrip s' else s
  | [] => []
  end.

(** [str.strip()] *)
Definition strip (s : str) : str := rev (lstrip (rev (lstrip s))).

(** [str.split('\n')]: the segments between newlines, empty ones included. *)
Fixpoint split_nl (s : str) : list str :=
  match s with
  | [] => [[]]
  | c :: s' =>
      if ascii_eqb c nl then [] :: split_nl s'
      else match split_nl s' with
           | seg :: segs => (c :: seg) :: segs
           | [] => [[c]]
           end
  end.

Fixpoint starts_with (p s : str) : bool :=
  match p, s with
  | [], _ => true
  | x :: p', y :: s' => ascii_eqb x y && starts_with p' s'
  | _ :: _, [] => false
  end.

(** [kw in s] for strings. *)
Fixpoint contains (kw s : str) : bool :=
  starts_with kw s ||
  match s with
  | [] => false
  | _ :: s' => contains kw s'
  end.

(** ** The matcher *)

(** Patterns.  Every quantifier of the patterns in the code applies to one
    character or one character class, so a quantified class [Rep p lo hi]
    (greedy, between [lo] and [hi] repetitions, [None] for no upper bound)
    covers [*], [+], [?], [{m}] and [{m,n}]. *)
Inductive regex : Type :=
| Lit (s : str)
| Rep (p : ascii -> bool) (lo : nat) (hi : option nat)
| Seq (a b : regex)
| Alt (a b : regex)
| Grp (a : regex)
| Bol
| Eol.

Declare Scope re_scope.
Delimit Scope re_scope with re.
Bind Scope re_scope with regex.
Notation "a ~> b" := (Seq a b) (at level 61, right associativity) : re_scope.
Notation "a </> b" := (Alt a b) (at level 62, right associativity) : re_scope.

Definition one (p : ascii -> bool) : regex := Rep p 1 (Some 1).
Definition opt (p : ascii -> bool) : regex := Rep p 0 (Some 1).
Definition star (p : ascii -> bool) : regex := Rep p 0 None.
Definition plus (p : ascii -> bool) : regex := Rep p 1 None.
Definition times (n : nat) (p : ascii -> bool) : regex := Rep p n (Some n).
Definition chr (c : ascii) : ascii -> bool := ascii_eqb c.
Definition lit (s : string) : regex := Lit (s2l s).

(** A matcher state: the position in the subject, the text from there on and
    the text of group 1 when it has been closed. *)
Record mstate : Type := MState { pos : nat; rest : str; grp : option str }.

Definition advance (k : nat) (st : mstate) : mstate :=
  MState (pos st + k) (skipn k (rest st)) (grp st).

(** The number of leading characters of [s] in class [p]. *)
Fixpoint run_length (p : ascii -> bool) (s : str) : nat :=
  match s with
  | c :: s' => if p c then S (run_length p s') else 0
  | [] => 0
  end.

Definition cap (hi : option nat) (n : nat) : nat :=
  match hi with
  | Some h => Nat.min h n
  | None => n
  end.

(** [countdown lo n] is [n, n-1, ..., lo] (empty when [n < lo]). *)
Definition countdown (lo n : nat) : list nat := rev (seq lo (S n - lo)).

(** All ways for the pattern to match from [st], most preferred first. *)
Fixpoint run (r : regex) (st : mstate) : list mstate :=
  match r with
  | Lit s =>
      if starts_with s (rest st) then [advance (length s) st] else []
  | Rep p lo hi =>
      map (fun k => advance k st)
          (countdown lo (cap hi (run_length p (rest st))))
  | Seq a b => flat_map (run b) (run a st)
  | Alt a b => run a st ++ run b st
  | Grp a =>
      map (fun st' =>
             MState (pos st') (rest st')
                    (Some (firstn (pos st' - pos st) (rest st))))
          (run a st)
  | Bol => if pos st =? 0 then [st] else []
  | Eol =>
      match rest st with
      | [] => [st]
      | [c] => if ascii_eqb c nl then [st] else []
      | _ => []
      end
  end.

(** The match object: where the match ends and what group 1 holds. *)
Definition attempt (r : regex) (p : nat) (s : str) : option mstate :=
  hd_error (run r (MState p s None)).

(** [re.match(r, s)]: a match at the start of [s]. *)
Definition re_match (r : regex) (s : str) : option mstate := attempt r 0 s.

(** What [findall] reports for one match of a pattern with one group. *)
Definition group1 (m : mstate) : str :=
  match grp m with
  | Some g => g
  | None => []
  end.

(** The scan of [re.search], [re.findall] and [re.sub]: matches are tried
    at the positions from left to right, and after a match that consumed
    [n] characters the next [n - 1] positions are skipped.  The patterns of
    this code consume at least one character. *)
Fixpoint search_from (r : regex) (p : nat) (s : str) : option (nat * str * mstate) :=
  match attempt r p s with
  | Some m => Some (p, s, m)
  | None =>
      match s with
      | [] => None
      | _ :: s' => search_from r (S p) s'
      end
  end.

(** [re.search(r, s).group(1)] *)
Definition re_search_group1 (r : regex) (s : str) : option str :=
  match search_from r 0 s with
  | Some (_, _, m) => Some (group1 m)
  | None => None
  end.

Fixpoint findall_from (r : regex) (skip p : nat) (s : str) : list str :=
  match skip with
  | S skip' =>
      match s with
      | [] => []
      | _ :: s' => findall_from r skip' (S p) s'
      end
  | 0 =>
      match attempt r p s with
      | Some m =>
          group1 m ::
          match s with
          | [] => []
          | _ :: s' => findall_from r (pos m - p - 1) (S p) s'
          end
      | None =>
          match s with
          | [] => []
          | _ :: s' => findall_from r 0 (S p) s'
          end
      end
  end.

(** [re.findall(r, s)] for a pattern with one capturing group. *)
Definition re_findall (r : regex) (s : str) : list str := findall_from r 0 0 s.

Fixpoint sub_from (r : regex) (repl : str) (skip p : nat) (s : str) : str :=
  match skip with
  | S skip' =>
      match s with
      | [] => []
      | _ :: s' => sub_from r repl skip' (S p) s'
      end
  | 0 =>
      match attempt r p s with
      | Some m =>
          repl ++
          match s with
          | [] => []
          | c :: s' =>
              if pos m =? p then c :: sub_from r repl 0 (S p) s'
              else sub_from r repl (pos m - p - 1) (S p) s'
          end
      | None =>
          match s with
          | [] => []
          | c :: s' => c :: sub_from r repl 0 (S p) s'
          end
      end
  end.

(** [re.sub(r, repl, s)] *)
Definition re_sub (r : regex) (repl : str) (s : str) : str := sub_from r repl 0 0 s.

(** ** Python floats of decimal tokens *)

Definition digit_val (c : ascii) : Z := Z.of_nat (code c) - 48.

Definition digits_val (ds : str) : Z :=
  fold_left (fun acc c => (10 * acc + digit_val c)%Z) ds 0%Z.

Fixpoint pow10 (n : nat) : positive :=
  match n with
  | 0 => 1%positive
  | S n' => (10 * pow10 n')%positive
  end.

Definition nonempty {A : Type} (s : list A) : bool :=
  match s with
  | [] => false
  | _ :: _ => true
  end.

(** [float(tok)] on an unsigned decimal token (digits with at most one
    point, a digit on at least one side of it): the number it denotes.
    [None] stands for [ValueError]; the patterns below only capture tokens
    of this shape.  Python rounds this number to the nearest double and
    reads a token of more than 308 integer digits as infinity; statements
    that must hold of those floats too are made over [to_float] in the
    sections [Amount] and [Items]. *)
Definition float (tok : str) : option Q :=
  let n := run_length is_digit tok in
  let ip := firstn n tok in
  match skipn n tok with
  | [] => if nonempty ip then Some (digits_val ip # 1) else None
  | c :: fp =>
      if ascii_eqb c "." && forallb is_digit fp && (nonempty ip || nonempty fp)
      then Some (digits_val (ip ++ fp) # pow10 (length fp))
      else None
  end.

(** ** The patterns of [OCRService] *)

Local Open Scope re_scope.

Definition colon_or_space (c : ascii) : bool := ascii_eqb c ":" || is_space c.
Definition slash_or_hyphen (c : ascii) : bool := ascii_eqb c "/" || ascii_eqb c "-".

(** [\d+\.\d{2}] *)
Definition decimal2 : regex := plus is_digit ~> one (chr ".") ~> times 2 is_digit.

(** The five patterns of [_extract_amount], in the order of the list. *)
Definition amount_patterns : list regex :=
  [ (* "(?:total|amount|sum|grand total|subtotal)[:\s]*\$?(G)", the group G being "\d+\.?\d*" *)
    (lit "total" </> lit "amount" </> lit "sum" </> lit "grand total" </> lit "subtotal")
      ~> star colon_or_space ~> opt (chr "$")
      ~> Grp (plus is_digit ~> opt (chr ".") ~> star is_digit);
    (* "total[:\s]*(\d+\.\d{2})" *)
    lit "total" ~> star colon_or_space ~> Grp decimal2;
    (* "\$(\d+\.\d{2})" *)
    one (chr "$") ~> Grp decimal2;
    (* "(\d+\.\d{2})\s*(?:total|$)" *)
    Grp decimal2 ~> star is_space ~> (lit "total" </> Eol);
    (* "(\d+\.\d{2})" *)
    Grp decimal2 ].

(** The four patterns of [_extract_date]. *)
Definition date_patterns : list regex :=
  [ (* "(\d{1,2}[/-]\d{1,2}[/-]\d{2,4})" *)
    Grp (Rep is_digit 1 (Some 2) ~> one slash_or_hyphen ~> Rep is_digit 1 (Some 2)
           ~> one slash_or_hyphen ~> Rep is_digit 2 (Some 4));
    (* "(\d{4}[/-]\d{1,2}[/-]\d{1,2})" *)
    Grp (times 4 is_digit ~> one slash_or_hyphen ~> Rep is_digit 1 (Some 2)
           ~> one slash_or_hyphen ~> Rep is_digit 1 (Some 2));
    (* "(\d{1,2}\s+\w+\s+\d{4})" *)
    Grp (Rep is_digit 1 (Some 2) ~> plus is_space ~> plus is_word ~> plus is_space
           ~> times 4 is_digit);
    (* "(\w+\s+\d{1,2},?\s+\d{4})" *)
    Grp (plus is_word ~> plus is_space ~> Rep is_digit 1 (Some 2) ~> opt (chr ",")
           ~> plus is_space ~> times 4 is_digit) ].

(** [^\d+[/-]\d+] *)
Definition leading_date_re : regex :=
  Bol ~> plus is_digit ~> one slash_or_hyphen ~> plus is_digit.

(** The class [[\d\s\-\.\$]]. *)
Definition numeric_class (c : ascii) : bool :=
  is_digit c || is_space c || ascii_eqb c "-" || ascii_eqb c "." || ascii_eqb c "$".

(** [^[\d\s\-\.\$]+$] *)
Definition pure_numeric_re : regex := Bol ~> plus numeric_class ~> Eol.

(** [\$?(\d+\.\d{2})], the price pattern of [_extract_items]. *)
Definition price_re : regex := opt (chr "$") ~> Grp decimal2.

(** [\$?\d+\.\d{2}], the same without the group, removed from the name. *)
Definition price_token_re : regex := opt (chr "$") ~> decimal2.

(** [[^\w\s]] *)
Definition not_word_or_space (c : ascii) : bool := negb (is_word c || is_space c).
Definition punct_re : regex := one not_word_or_space.

Local Close Scope re_scope.

(** ** The extractors *)

(** [_extract_amount], over the float operations it uses: [float] (with
    [None] for the [ValueError] the code catches), [<=] and the two
    literals of the range test. *)
Section Amount.
Variable F : Type.
Variable to_float : str -> option F.
Variable fle : F -> F -> bool.
Variables lit_0_01 lit_10000 : F.

(** [0.01 <= amount <= 10000] *)
Definition reasonable (amount : F) : bool :=
  fle lit_0_01 amount && fle amount lit_10000.

(** The body of [for match in matches], on the list [amounts]. *)
Definition visit_match (amounts : list F) (m : str) : list F :=
  match to_float m with
  | Some amount => if reasonable amount then amounts ++ [amount] else amounts
  | None => amounts
  end.

(** The body of [for pattern in patterns]. *)
Definition visit_pattern (text_lower : str) (amounts : list F) (pattern : regex) : list F :=
  fold_left visit_match (re_findall pattern text_lower) amounts.

Definition collect_amounts (text : str) : list F :=
  fold_left (visit_pattern (lower text)) amount_patterns [].

(** [max] keeps the current maximum unless the next element is greater. *)
Definition py_max (first : F) (others : list F) : F :=
  fold_left (fun m x => if fle x m then m else x) others first.

Definition extract_amount_with (text : str) : option F :=
  match collect_amounts text with
  | [] => None
  | a :: others => Some (py_max a others)
  end.
End Amount.

Definition extract_amount : str -> option Q :=
  extract_amount_with Q float Qle_bool 0.01%Q 10000%Q.

(** A successful [re.search] returns [match.group(1)]. *)
Fixpoint extract_date_from (patterns : list regex) (text : str) : option str :=
  match patterns with
  | [] => None
  | pattern :: patterns' =>
      match re_search_group1 pattern text with
      | Some g => Some g
      | None => extract_date_from patterns' text
      end
  end.

Definition extract_date (text : str) : option str :=
  extract_date_from date_patterns text.

Definition unknown_merchant : str := s2l "Unknown Merchant".

Definition is_some {A : Type} (o : option A) : bool :=
  match o with
  | Some _ => true
  | None => false
  end.

(** The loop of [_extract_merchant] over [lines[:5]]. *)
Fixpoint first_merchant (lines : list str) : str :=
  match lines with
  | [] => unknown_merchant
  | line :: lines' =>
      if is_some (re_match leading_date_re line) || (length line <? 3)
      then first_merchant lines'
      else if is_some (re_match pure_numeric_re line)
      then first_merchant lines'
      else line
  end.

Definition extract_merchant (lines : list str) : str :=
  first_merchant (firstn 5 lines).

Record Item : Type := MkItem { name : str; price : Q }.

(** What a call evaluates to: a value, or a raised exception, which carries
    the text [str(e)] gives. *)
Inductive exc (A : Type) : Type :=
| Ok (a : A)
| Raise (e : str).
Arguments Ok {A} a.
Arguments Raise {A} e.

(** The [ValueError] of [float(tok)], for a token that [repr] leaves as it
    is between its quotes. *)
Definition ValueError {A : Type} (tok : str) : exc A :=
  Raise (s2l "could not convert string to float: '" ++ tok ++ s2l "'").

(** The loop of [_extract_items], on the list [items]. *)
Fixpoint collect_items (lines : list str) (items : list Item) : exc (list Item) :=
  match lines with
  | [] => Ok items
  | line :: lines' =>
      let price_matches := re_findall price_re line in
      if nonempty price_matches then
        let item_name := strip (re_sub price_token_re [] line) in
        let item_name := strip (re_sub punct_re (s2l " ") item_name) in
        if nonempty item_name && (2 <? length item_name) then
          match float (last price_matches []) with
          | Some p => collect_items lines' (items ++ [MkItem item_name p])
          | None => ValueError (last price_matches [])
          end
        else collect_items lines' items
      else collect_items lines' items
  end.

Definition extract_items (lines : list str) : exc (list Item) :=
  match collect_items lines [] with
  | Ok items => Ok (firstn 10 items)
  | Raise e => Raise e
  end.

(** [ExpenseCategory] of app/models/expense.py. *)
Inductive ExpenseCategory : Type :=
| FOOD | TRANSPORT | SHOPPING | ENTERTAINMENT | BILLS | HEALTHCARE | OTHER.

Definition value (c : ExpenseCategory) : str :=
  match c with
  | FOOD => s2l "food"
  | TRANSPORT => s2l "transport"
  | SHOPPING => s2l "shopping"
  | ENTERTAINMENT => s2l "entertainment"
  | BILLS => s2l "bills"
  | HEALTHCARE => s2l "healthcare"
  | OTHER => s2l "other"
  end.

Definition food_keywords : list string :=
  ["restaurant"; "cafe"; "coffee"; "pizza"; "burger"; "food"; "dining"; "kitchen";
   "bistro"; "grill"]%string.
Definition shopping_keywords : list string :=
  ["store"; "shop"; "market"; "mall"; "retail"; "walmart"; "target"; "amazon"]%string.
Definition transport_keywords : list string :=
  ["gas"; "fuel"; "station"; "uber"; "taxi"; "bus"; "metro"; "parking"]%string.
Definition bills_keywords : list string :=
  ["electric"; "water"; "internet"; "phone"; "utility"; "bill"; "payment"]%string.
Definition health_keywords : list string :=
  ["pharmacy"; "hospital"; "clinic"; "medical"; "doctor"; "health"]%string.

(** [any(keyword in merchant_lower for keyword in keywords)] *)
Definition any_keyword (keywords : list string) (merchant_lower : str) : bool :=
  existsb (fun keyword => contains (s2l keyword) merchant_lower) keywords.

Definition determine_category (merchant : str) (items : list Item) : str :=
  let merchant_lower := if nonempty merchant then lower merchant else [] in
  if any_keyword food_keywords merchant_lower then s2l "food"
  else if any_keyword shopping_keywords merchant_lower then s2l "shopping"
  else if any_keyword transport_keywords merchant_lower then s2l "transport"
  else if any_keyword bills_keywords merchant_lower then s2l "bills"
  else if any_keyword health_keywords merchant_lower then s2l "healthcare"
  else s2l "other".

(** The dictionary [_parse_expense_data] returns. *)
Record ParsedData : Type := MkParsed {
  amount : option Q;
  date : option str;
  merchant : str;
  items : list Item;
  category : str;
  description : str
}.

(** [[line.strip() for line in text.split('\n') if line.strip()]] *)
Definition lines_of (text : str) : list str :=
  filter nonempty (map strip (split_nl text)).

Definition describe (merchant : str) : str :=
  if nonempty merchant then s2l "Receipt from " ++ merchant
  else s2l "Receipt expense".

Definition parse_expense_data (text : str) : exc ParsedData :=
  let lines := lines_of text in
  let amount := extract_amount text in
  let date := extract_date text in
  let merchant := extract_merchant lines in
  match extract_items lines with
  | Raise e => Raise e
  | Ok items =>
      let category := determine_category merchant items in
      Ok (MkParsed amount date merchant items category (describe merchant))
  end.

(** ** The pipeline *)

(** The calls that leave the process, in the order they are made. *)
Inductive Event : Type :=
| FileRead
| ImDecode
| Enhance
| ImageToString.

(** [UploadFile] *)
Record UploadFile : Type := MkUpload {
  content_type : option str;
  contents : list Byte.byte
}.

(** The dictionary [OCRService.parse_receipt] returns; [parsed_data] is
    [None] for the empty dictionary. *)
Record OcrResult : Type := MkOcrResult {
  success : bool;
  error : option str;
  raw_text : str;
  parsed_data : option ParsedData
}.

(** What the route gives its caller: the dictionary it returns or the
    [HTTPException] it raises. *)
Inductive Response : Type :=
| Returned (raw : str) (parsed : option ParsedData) (message : str)
| HTTPException (status_code : nat) (detail : str).

Section Pipeline.
(** The image library and the recognizer. *)
Variable Image : Type.
Variable size : Image -> nat.
(** [cv2.imdecode(np.frombuffer(contents, np.uint8), cv2.IMREAD_COLOR)] *)
Variable imdecode : list Byte.byte -> exc (option Image).
(** [cvtColor], [GaussianBlur] and [threshold], in that order. *)
Variable enhance : Image -> exc Image.
(** [pytesseract.image_to_string] *)
Variable image_to_string : Image -> exc str.

Definition read_image_safely (file : UploadFile) : option Image * list Event :=
  let contents := contents file in
  (match imdecode contents with
   | Ok (Some image) => if size image =? 0 then None else Some image
   | Ok None => None
   | Raise _ => None
   end, [FileRead; ImDecode]).

Definition preprocess_image (image : Image) : Image * list Event :=
  (match enhance image with
   | Ok thresh => thresh
   | Raise _ => image
   end, [Enhance]).

Definition failed (e : str) : OcrResult := MkOcrResult false (Some e) [] None.

(** [OCRService.parse_receipt] *)
Definition ocr_parse_receipt (file : UploadFile) : OcrResult * list Event :=
  let (image, t1) := read_image_safely file in
  match image with
  | None => (failed (s2l "Could not read image file"), t1)
  | Some image =>
      let (processed_image, t2) := preprocess_image image in
      let t3 := t1 ++ t2 ++ [ImageToString] in
      match image_to_string processed_image with
      | Raise e => (failed e, t3)
      | Ok raw_text =>
          match parse_expense_data raw_text with
          | Raise e => (failed e, t3)
          | Ok parsed_data => (MkOcrResult true None raw_text (Some parsed_data), t3)
          end
      end
  end.

(** [file.content_type and file.content_type.startswith('image/')] *)
Definition is_image_type (file : UploadFile) : bool :=
  match content_type file with
  | None => false
  | Some ct => nonempty ct && starts_with (s2l "image/") ct
  end.

(** The route [POST /receipts/parse], for an authenticated user. *)
Definition parse_receipt (file : UploadFile) : Response * list Event :=
  if negb (is_image_type file)
  then (HTTPException 400 (s2l "File must be an image"), [])
  else
    let (result, t) := ocr_parse_receipt file in
    (if negb (success result)
     then HTTPException 400 (match error result with Some e => e | None => [] end)
     else Returned (raw_text result) (parsed_data result)
            (s2l "Receipt parsed successfully"), t).
End Pipeline.

(** ** What the specification says, in its own words *)

(** A text without numeric tokens: no digit occurs in it. *)
Definition digitless (s : str) : bool := forallb (fun c => negb (is_digit c)) s.

(** A candidate of AmountExtractor: the value of a match of one of the
    five patterns on the lowercased text that lies in the plausible range. *)
Definition candidate (F : Type) (to_float : str -> option F) (fle : F -> F -> bool)
    (lo hi : F) (text : str) (a : F) : Prop :=
  exists pattern m,
    In pattern amount_patterns /\
    In m (re_findall pattern (lower text)) /\
    to_float m = Some a /\
    reasonable F fle lo hi a = true.

(** A digit group, a slash or hyphen, a digit group, at the start. *)
Definition starts_with_date (line : str) : bool :=
  let n := run_length is_digit line in
  (0 <? n) &&
  match skipn n line with
  | c :: d :: _ => slash_or_hyphen c && is_digit d
  | _ => false
  end.

(** Only digits, whitespace, hyphens, periods and the symbols [currency]. *)
Definition solely_numeric (currency : ascii -> bool) (line : str) : bool :=
  forallb (fun c => is_digit c || is_space c || ascii_eqb c "-" || ascii_eqb c "."
                    || currency c) line.

Definition disqualified (currency : ascii -> bool) (line : str) : bool :=
  starts_with_date line || solely_numeric currency line || (length line <? 3).

(** The first of the first five lines that is not disqualified, else the
    sentinel. *)
Definition merchant_rule (currency : ascii -> bool) (lines : list str) : str :=
  match find (fun line => negb (disqualified currency line)) (firstn 5 lines) with
  | Some line => line
  | None => unknown_merchant
  end.

(** The dollar sign, the one currency symbol of the class in the code. *)
Definition dollar (c : ascii) : bool := ascii_eqb c "$".

(** The currency symbols (category Sc) below U+0100: dollar, cent, pound,
    currency and yen sign. *)
Definition currency_symbol (c : ascii) : bool :=
  let n := code c in (n =? 36) || between 162 165 n.

Definition pound : ascii := ascii_of_nat 163.

(** Scenario A of the specification. *)
Definition scenario_a : str :=
  s2l "Walmart Supercenter" ++ [nl] ++ s2l "01/15/2024" ++ [nl] ++ s2l "Milk 3.99"
    ++ [nl] ++ s2l "Bread 2.50" ++ [nl] ++ s2l "TOTAL $6.49".

(** ** Stored expenses: the saving route and app/routers/expenses.py *)

(** [a == b] on strings. *)
Fixpoint str_eqb (a b : str) : bool :=
  match a, b with
  | [], [] => true
  | x :: a', y :: b' => ascii_eqb x y && str_eqb a' b'
  | _, _ => false
  end.

(** [str(n)] for a natural number. *)
Definition str_of_nat (n : nat) : str :=
  s2l (NilEmpty.string_of_uint (Nat.to_uint n)).

(** [f"exp_{len(expenses_db) + 1}"] *)
Definition next_id {A : Type} (expenses_db : list A) : str :=
  s2l "exp_" ++ str_of_nat (length expenses_db + 1).

(** The dictionary [create_expense] stores. *)
Module Form.
Record t : Type := Make {
  id : str;
  user_id : str;
  amount : Q;
  description : str;
  category : str;
  date : str;
  created_at : str
}.
End Form.

(** The dictionary [parse_and_save_receipt] stores. *)
Module Receipt.
Record t : Type := Make {
  id : str;
  user_id : str;
  amount : Q;
  description : str;
  category : str;
  date : option str;
  merchant : str;
  items : list Item;
  source : str;
  created_at : str
}.
End Receipt.

(** An element of [expenses_db]. *)
Inductive Row : Type :=
| FromForm (e : Form.t)
| FromReceipt (e : Receipt.t).

(** [exp["id"]] and [exp["user_id"]] *)
Definition row_id (exp : Row) : str :=
  match exp with
  | FromForm e => Form.id e
  | FromReceipt e => Receipt.id e
  end.

Definition row_user_id (exp : Row) : str :=
  match exp with
  | FromForm e => Form.user_id e
  | FromReceipt e => Receipt.user_id e
  end.

(** What [parse_and_save_receipt] gives its caller: one of the two
    dictionaries it returns, or the [HTTPException] it raises. *)
Inductive SaveResponse : Type :=
| Saved (expense_id : str) (expense : Receipt.t) (raw : str) (parsed : ParsedData)
        (message : str)
| NotSaved (message : str) (raw : str) (parsed : option ParsedData)
| SaveError (status_code : nat) (detail : str).

(** [parsed_data.get("amount")] when it is truthy: present and not 0.0. *)
Definition truthy_amount (parsed : option ParsedData) : option Q :=
  match parsed with
  | Some d =>
      match amount d with
      | Some a => if Qeq_bool a 0 then None else Some a
      | None => None
      end
  | None => None
  end.

Section Saving.
Variable Image : Type.
Variable size : Image -> nat.
Variable imdecode : list Byte.byte -> exc (option Image).
Variable enhance : Image -> exc Image.
Variable image_to_string : Image -> exc str.

(** The route [POST /receipts/parse-and-save], for the authenticated user
    [user_id], at the time [now] (the text of
    [datetime.utcnow().isoformat()]), on the list [expenses_db]; the list
    after the call is the second component.  The keys "description",
    "category", "date", "merchant" and "items" are in every dictionary of
    [_parse_expense_data], so no default of a [get] applies. *)
Definition parse_and_save_receipt (file : UploadFile) (user_id now : str)
    (expenses_db : list Row) : SaveResponse * list Row * list Event :=
  if negb (is_image_type file)
  then (SaveError 400 (s2l "File must be an image"), expenses_db, [])
  else
    let (result, t) := ocr_parse_receipt Image size imdecode enhance image_to_string file in
    if negb (success result)
    then (SaveError 400 (match error result with Some e => e | None => [] end),
          expenses_db, t)
    else
      match truthy_amount (parsed_data result), parsed_data result with
      | Some a, Some d =>
          let expense_id := next_id expenses_db in
          let expense_data :=
            Receipt.Make expense_id user_id a (description d) (category d) (date d)
              (merchant d) (items d) (s2l "receipt_ocr") now in
          (Saved expense_id expense_data (raw_text result) d
             (s2l "Receipt parsed and expense created successfully!"),
           expenses_db ++ [FromReceipt expense_data], t)
      | _, _ =>
          (NotSaved (s2l "Could not extract amount from receipt") (raw_text result)
             (parsed_data result), expenses_db, t)
      end.
End Saving.

(** [ExpenseCreate] after validation; the date is a [datetime] or a string. *)
Module Create.
Record t (DateTime : Type) : Type := Make {
  amount : Q;
  description : str;
  category : ExpenseCategory;
  date : DateTime + str
}.
Arguments Make {DateTime} amount description category date.
Arguments amount {DateTime} t.
Arguments description {DateTime} t.
Arguments category {DateTime} t.
Arguments date {DateTime} t.
End Create.

Section Expenses.
Variable DateTime : Type.
(** [datetime.isoformat] *)
Variable isoformat : DateTime -> str.

(** [expense.date.isoformat() if hasattr(expense.date, 'isoformat') else
    str(expense.date)] *)
Definition date_text (d : DateTime + str) : str :=
  match d with
  | inl dt => isoformat dt
  | inr s => s
  end.

(** The route [POST /expenses/]: the identifier and the dictionary it
    returns, and the list after the call. *)
Definition create_expense (expense : Create.t DateTime) (user_id : str) (now : DateTime)
    (expenses_db : list Row) : (str * Form.t) * list Row :=
  let expense_id := next_id expenses_db in
  let expense_data :=
    Form.Make expense_id user_id (Create.amount expense) (Create.description expense)
      (value (Create.category expense)) (date_text (Create.date expense))
      (isoformat now) in
  ((expense_id, expense_data), expenses_db ++ [FromForm expense_data]).
End Expenses.

(** The route [GET /expenses/]: the user's expenses and their count. *)
Definition get_expenses (user_id : str) (expenses_db : list Row) : list Row * nat :=
  let user_expenses := filter (fun exp => str_eqb (row_user_id exp) user_id) expenses_db in
  (user_expenses, length user_expenses).

(** ** The authenticated user: app/core/dependencies.py *)

(** A value of [users_db], the dictionary from email to user. *)
Module User.
Record t : Type := Make {
  id : str;
  email : str;
  password : str;
  full_name : option str;
  is_active : bool
}.
End User.

(** What a dependency gives the route: a value, or the [HTTPException] that
    answers the request. *)
Inductive http (A : Type) : Type :=
| Allowed (a : A)
| Denied (status_code : nat) (detail : str).
Arguments Allowed {A} a.
Arguments Denied {A} status_code detail.

(** [d[key]] on a dictionary of strings, [None] for [KeyError]. *)
Fixpoint dict_get (d : list (str * str)) (key : str) : option str :=
  match d with
  | [] => None
  | (k, v) :: d' => if str_eqb k key then Some v else dict_get d' key
  end.

(** The loop over [users_db.items()], in the order of insertion. *)
Fixpoint find_user (users : list (str * User.t)) (user_id : str) : option User.t :=
  match users with
  | [] => None
  | (_, user_data) :: users' =>
      if str_eqb (User.id user_data) user_id then Some user_data
      else find_user users' user_id
  end.

(** What a call of [auth_service.verify_token] comes to: the token data, an
    [HTTPException] it raised, or another exception. *)
Inductive verified : Type :=
| TokenData (token_data : list (str * str))
| RaisedHTTP (status_code : nat) (detail : str)
| RaisedOther (e : str).

Section Auth.
(** [auth_service.verify_token] *)
Variable verify_token : str -> verified.

(** Of the exceptions raised in the [try] block, an [HTTPException] is
    raised again as it is and any other becomes the 401 of the last
    handler. *)
Definition get_current_user (users_db : list (str * User.t)) (credentials : str)
    : http User.t :=
  match verify_token credentials with
  | RaisedHTTP status_code detail => Denied status_code detail
  | RaisedOther _ => Denied 401 (s2l "Invalid authentication credentials")
  | TokenData token_data =>
      match dict_get token_data (s2l "user_id") with
      | None => Denied 401 (s2l "Invalid authentication credentials")
      | Some user_id =>
          match find_user users_db user_id with
          | Some user_data => Allowed user_data
          | None => Denied 401 (s2l "User not found")
          end
      end
  end.
End Auth.

(** ** Further notions of the statements *)

(** [d] occurs in [s] as a run of consecutive characters. *)
Definition infix (d s : str) : Prop := exists pre post, s = pre ++ d ++ post.

(** A string without whitespace at either end. *)
Definition trimmed (s : str) : Prop :=
  (forall c, hd_error s = Some c -> is_space c = false) /\
  (forall c, hd_error (rev s) = Some c -> is_space c = false).

(** The identifiers follow the positions: the [i]-th element is "exp_i". *)
Definition numbered (expenses_db : list Row) : Prop :=
  forall i exp, nth_error expenses_db i = Some exp ->
                row_id exp = s2l "exp_" ++ str_of_nat (i + 1).

(** Every match of [r] consumes at least [n] characters. *)
Definition consumes (n : nat) (r : regex) : Prop :=
  forall st st', In st' (run r st) -> pos st + n <= pos st'.

(** The name [_extract_items] gives the item of a line. *)
Definition item_name_of (line : str) : str :=
  strip (re_sub punct_re (s2l " ") (strip (re_sub price_token_re [] line))).

(** Word characters and whitespace. *)
Definition word_or_space (c : ascii) : bool := is_word c || is_space c.

(** ** [_extract_items] over the float operation it uses *)

(** The dictionary of an item, for any type of floats. *)
Module Priced.
Record t (F : Type) : Type := Make { name : str; price : F }.
Arguments Make {F} name price.
Arguments name {F} t.
Arguments price {F} t.
End Priced.

Section Items.
Variable F : Type.
(** [float], with [None] for a [ValueError]. *)
Variable to_float : str -> option F.

(** The loop of [_extract_items], on the list [items]. *)
Fixpoint collect_items_with (lines : list str) (items : list (Priced.t F))
    : exc (list (Priced.t F)) :=
  match lines with
  | [] => Ok items
  | line :: lines' =>
      let price_matches := re_findall price_re line in
      if nonempty price_matches then
        let item_name := strip (re_sub price_token_re [] line) in
        let item_name := strip (re_sub punct_re (s2l " ") item_name) in
        if nonempty item_name && (2 <? length item_name) then
          match to_float (last price_matches []) with
          | Some p => collect_items_with lines' (items ++ [Priced.Make item_name p])
          | None => ValueError (last price_matches [])
          end
        else collect_items_with lines' items
      else collect_items_with lines' items
  end.

Definition extract_items_with (lines : list str) : exc (list (Priced.t F)) :=
  match collect_items_with lines [] with
  | Ok items => Ok (firstn 10 items)
  | Raise e => Raise e
  end.
End Items.

(** The item of the rational instance. *)
Definition to_item (it : Priced.t Q) : Item := MkItem (Priced.name it) (Priced.price it).

(** ** Notions of the proofs *)

(** [r] cannot match at the start of a text without digits. *)
Definition digit_bound (r : regex) : Prop :=
  forall st, digitless (rest st) = true -> run r st = [].

(** Every match of [r] consumes at least one character. *)
Definition advances (r : regex) : Prop :=
  forall st st', In st' (run r st) -> pos st < pos st'.

(** A token [\d+\.\d{2}]: digits, a point, two digits. *)
Definition decimal2_token (w : str) : Prop :=
  exists ds d1 d2,
    w = ds ++ "."%char :: d1 :: d2 :: [] /\ ds <> [] /\ forallb is_digit ds = true /\
    is_digit d1 = true /\ is_digit d2 = true.

(** What the code guarantees of an item. *)
Definition item_ok (it : Item) : Prop := 2 < length (name it) /\ (0 <= price it)%Q.

(** ** Lists and characters *)

Lemma in_countdown (lo n k : nat) : In k (countdown lo n) <-> lo <= k <= n.
Proof.
  unfold countdown. rewrite <- in_rev, in_seq. lia.
Qed.

Lemma cap_le (hi : option nat) (n : nat) : cap hi n <= n.
Proof.
  destruct hi as [h|]; simpl; lia.
Qed.

Lemma run_length_le (p : ascii -> bool) (s : str) : run_length p s <= length s.
Proof.
  induction s as [|c s IH]; simpl; [lia|]. destruct (p c); lia.
Qed.

Lemma run_length_firstn (p : ascii -> bool) (s : str) (k : nat) :
  k <= run_length p s -> forallb p (firstn k s) = true /\ length (firstn k s) = k.
Proof.
  revert k. induction s as [|c s IH]; intros k Hk; simpl in Hk.
  - assert (k = 0) by lia. subst. now simpl.
  - destruct k as [|k]; [now simpl|].
    destruct (p c) eqn:Hc; [|lia].
    destruct (IH k) as [Hall Hlen]; [lia|].
    simpl. now rewrite Hc, Hall, Hlen.
Qed.

Lemma run_length_app (p : ascii -> bool) (w tl : str) :
  forallb p w = true ->
  match tl with [] => True | c :: _ => p c = false end ->
  run_length p (w ++ tl) = length w.
Proof.
  intros Hw Htl. induction w as [|c w IH]; simpl in *.
  - destruct tl as [|c tl]; simpl; [reflexivity|now rewrite Htl].
  - apply andb_true_iff in Hw as [Hc Hw]. rewrite Hc. now rewrite IH.
Qed.

Lemma run_length_all (p : ascii -> bool) (s : str) :
  run_length p s = length s <-> forallb p s = true.
Proof.
  induction s as [|c s IH]; simpl; [tauto|].
  destruct (p c); simpl.
  - rewrite <- IH. lia.
  - split; [lia|discriminate].
Qed.

Lemma starts_with_length (p s : str) : starts_with p s = true -> length p <= length s.
Proof.
  revert s. induction p as [|x p IH]; intros [|y s] H; simpl in *; try lia; try discriminate.
  apply andb_true_iff in H as [_ H]. apply IH in H. lia.
Qed.

Lemma digitless_skipn (k : nat) (s : str) :
  digitless s = true -> digitless (skipn k s) = true.
Proof.
  revert s. induction k as [|k IH]; intros [|c s] H; simpl in *; auto.
  apply andb_true_iff in H as [_ H]. now apply IH.
Qed.

Lemma digitless_run_length (s : str) :
  digitless s = true -> run_length is_digit s = 0.
Proof.
  destruct s as [|c s]; simpl; [reflexivity|].
  intros H. apply andb_true_iff in H as [H _].
  now destruct (is_digit c).
Qed.

Lemma hd_error_some {A : Type} (l : list A) :
  is_some (hd_error l) = true <-> exists x, In x l.
Proof.
  destruct l as [|x l]; simpl; split; try discriminate.
  - intros [x []].
  - intros _. exists x. now left.
  - reflexivity.
Qed.

(** ** The matcher: where a match can end *)

Lemma in_run_rep (p : ascii -> bool) (lo : nat) (hi : option nat) (st st' : mstate) :
  In st' (run (Rep p lo hi) st) <->
  exists k, lo <= k <= cap hi (run_length p (rest st)) /\ st' = advance k st.
Proof.
  simpl. rewrite in_map_iff. split.
  - intros [k [E H]]. exists k. apply in_countdown in H. now split.
  - intros [k [H E]]. exists k. split; [now symmetry|]. now apply in_countdown.
Qed.

Lemma in_run_seq (a b : regex) (st st' : mstate) :
  In st' (run (Seq a b) st) <-> exists st1, In st1 (run a st) /\ In st' (run b st1).
Proof.
  simpl. apply in_flat_map.
Qed.

(** A match consumes a prefix of the text it starts on. *)
Lemma run_consumes (r : regex) (st st' : mstate) :
  In st' (run r st) ->
  exists k, k <= length (rest st) /\ pos st' = pos st + k /\ rest st' = skipn k (rest st).
Proof.
  revert st st'. induction r as [s|p lo hi|a IHa b IHb|a IHa b IHb|a IHa| |]; intros st st' H.
  - simpl in H. destruct (starts_with s (rest st)) eqn:E; [|contradiction].
    destruct H as [<-|[]]. exists (length s). simpl.
    split; [now apply starts_with_length|easy].
  - apply in_run_rep in H as [k [[_ Hk] ->]]. exists k. simpl.
    split; [|easy]. pose proof (cap_le hi (run_length p (rest st))).
    pose proof (run_length_le p (rest st)). lia.
  - apply in_run_seq in H as [st1 [H1 H2]].
    apply IHa in H1 as [k1 [L1 [P1 R1]]]. apply IHb in H2 as [k2 [L2 [P2 R2]]].
    exists (k1 + k2). rewrite R1 in L2, R2. rewrite length_skipn in L2.
    rewrite skipn_skipn in R2. rewrite P2, P1, R2.
    repeat split; try lia. f_equal. lia.
  - simpl in H. apply in_app_iff in H as [H|H]; [now apply IHa|now apply IHb].
  - simpl in H. apply in_map_iff in H as [s1 [<- H]]. simpl. now apply IHa.
  - simpl in H. destruct (pos st =? 0); [|contradiction]. destruct H as [<-|[]].
    exists 0. simpl. repeat split; lia.
  - assert (st' = st) as ->.
    { simpl in H. destruct (rest st) as [|c [|d tl]]; try contradiction.
      - now destruct H as [<-|[]].
      - destruct (ascii_eqb c nl); [|contradiction]. now destruct H as [<-|[]]. }
    exists 0. simpl. repeat split; lia.
Qed.

(** ** The scanned patterns consume a character *)

Lemma advances_rep (p : ascii -> bool) (lo : nat) (hi : option nat) :
  advances (Rep p (S lo) hi).
Proof.
  intros st st' H. apply in_run_rep in H as [k [[Hk _] ->]]. simpl. lia.
Qed.

Lemma advances_seq_l (a b : regex) : advances a -> advances (Seq a b).
Proof.
  intros Ha st st' H. apply in_run_seq in H as [s1 [H1 H2]].
  apply Ha in H1. apply run_consumes in H2 as [k [_ [P _]]]. lia.
Qed.

Lemma advances_seq_r (a b : regex) : advances b -> advances (Seq a b).
Proof.
  intros Hb st st' H. apply in_run_seq in H as [s1 [H1 H2]].
  apply Hb in H2. apply run_consumes in H1 as [k [_ [P _]]]. lia.
Qed.

Lemma advances_grp (a : regex) : advances a -> advances (Grp a).
Proof.
  intros Ha st st' H. simpl in H. apply in_map_iff in H as [s1 [<- H]]. simpl.
  now apply Ha.
Qed.

Lemma advances_decimal2 : advances decimal2.
Proof.
  apply advances_seq_l, advances_rep.
Qed.

(** The patterns given to [re.findall] and [re.sub] have no empty match. *)
Lemma scanned_patterns_advance :
  Forall advances (price_re :: price_token_re :: punct_re :: amount_patterns).
Proof.
  unfold amount_patterns.
  repeat apply Forall_cons; try apply Forall_nil.
  - apply advances_seq_r, advances_grp, advances_decimal2.
  - apply advances_seq_r, advances_decimal2.
  - apply advances_rep.
  - do 3 apply advances_seq_r. apply advances_grp, advances_seq_l, advances_rep.
  - do 2 apply advances_seq_r. apply advances_grp, advances_decimal2.
  - apply advances_seq_l, advances_rep.
  - apply advances_seq_l, advances_grp, advances_decimal2.
  - apply advances_grp, advances_decimal2.
Qed.

(** ** Patterns that need a digit *)

Lemma digit_bound_plus (lo : nat) (hi : option nat) :
  digit_bound (Rep is_digit (S lo) hi).
Proof.
  intros st H. simpl. rewrite (digitless_run_length _ H).
  replace (cap hi 0) with 0 by (destruct hi; simpl; lia).
  unfold countdown. now replace (1 - S lo) with 0 by lia.
Qed.

Lemma digit_bound_seq_l (a b : regex) : digit_bound a -> digit_bound (Seq a b).
Proof.
  intros Ha st H. simpl. now rewrite (Ha st H).
Qed.

Lemma digit_bound_seq_r (a b : regex) : digit_bound b -> digit_bound (Seq a b).
Proof.
  intros Hb st H. simpl.
  destruct (flat_map (run b) (run a st)) as [|x l] eqn:E; [reflexivity|].
  assert (Hx : In x (flat_map (run b) (run a st))) by (rewrite E; now left).
  apply in_flat_map in Hx as [st1 [H1 H2]].
  apply run_consumes in H1 as [k [_ [_ R]]].
  rewrite Hb in H2; [contradiction|]. rewrite R. now apply digitless_skipn.
Qed.

Lemma digit_bound_grp (a : regex) : digit_bound a -> digit_bound (Grp a).
Proof.
  intros Ha st H. simpl. now rewrite (Ha st H).
Qed.

Lemma digit_bound_decimal2 : digit_bound decimal2.
Proof.
  apply digit_bound_seq_l, digit_bound_plus.
Qed.

Lemma digit_bound_amount_patterns : Forall digit_bound amount_patterns.
Proof.
  unfold amount_patterns.
  repeat apply Forall_cons; try apply Forall_nil.
  - do 3 apply digit_bound_seq_r. apply digit_bound_grp, digit_bound_seq_l, digit_bound_plus.
  - do 2 apply digit_bound_seq_r. apply digit_bound_grp, digit_bound_decimal2.
  - apply digit_bound_seq_r, digit_bound_grp, digit_bound_decimal2.
  - apply digit_bound_seq_l, digit_bound_grp, digit_bound_decimal2.
  - apply digit_bound_grp, digit_bound_decimal2.
Qed.

Lemma digit_bound_price_re : digit_bound price_re.
Proof.
  apply digit_bound_seq_r, digit_bound_grp, digit_bound_decimal2.
Qed.

Lemma attempt_digitless (r : regex) (p : nat) (s : str) :
  digit_bound r -> digitless s = true -> attempt r p s = None.
Proof.
  intros Hr Hs. unfold attempt. now rewrite Hr.
Qed.

Lemma findall_digitless (r : regex) (s : str) :
  digit_bound r -> digitless s = true -> forall skip p, findall_from r skip p s = [].
Proof.
  intros Hr. induction s as [|c s IH]; intros Hs skip p.
  - destruct skip; simpl; [|reflexivity]. now rewrite attempt_digitless.
  - assert (Hs' : digitless s = true) by (simpl in Hs; now apply andb_true_iff in Hs).
    destruct skip; simpl; [|now apply IH].
    rewrite attempt_digitless by assumption. now apply IH.
Qed.

(** Every element [findall] reports is group 1 of a match. *)
Lemma findall_groups (r : regex) (P : str -> Prop) :
  (forall p s m, attempt r p s = Some m -> P (group1 m)) ->
  forall s skip p, Forall P (findall_from r skip p s).
Proof.
  intros H. induction s as [|c s IH]; intros skip p.
  - destruct skip; simpl; [|constructor].
    destruct (attempt r p []) eqn:E; constructor; eauto.
  - destruct skip; simpl; [|apply IH].
    destruct (attempt r p (c :: s)) eqn:E; [constructor; eauto|apply IH].
Qed.

(** ** The price token and its float *)

Lemma digit_val_nonneg (c : ascii) : is_digit c = true -> (0 <= digit_val c)%Z.
Proof.
  unfold is_digit, between, digit_val. intros H.
  apply andb_true_iff in H as [H _]. apply Nat.leb_le in H. lia.
Qed.

Lemma digits_fold_nonneg (ds : str) (acc : Z) :
  (0 <= acc)%Z -> forallb is_digit ds = true ->
  (0 <= fold_left (fun a c => (10 * a + digit_val c)%Z) ds acc)%Z.
Proof.
  revert acc. induction ds as [|c ds IH]; intros a Ha Hds;
    cbn [fold_left forallb] in *; [assumption|].
  apply andb_true_iff in Hds as [Hc Hds]. apply IH; [|assumption].
  pose proof (digit_val_nonneg c Hc). lia.
Qed.

Lemma digits_val_nonneg (ds : str) :
  forallb is_digit ds = true -> (0 <= digits_val ds)%Z.
Proof.
  intros H. apply digits_fold_nonneg; [lia|assumption].
Qed.

Lemma in_run_rep_word (p : ascii -> bool) (lo : nat) (hi : option nat) (st st' : mstate) :
  In st' (run (Rep p lo hi) st) ->
  exists w, rest st = w ++ rest st' /\ forallb p w = true /\ lo <= length w /\
            (forall h, hi = Some h -> length w <= h) /\
            pos st' = pos st + length w /\ grp st' = grp st.
Proof.
  intros H. apply in_run_rep in H as [k [[Hlo Hhi] ->]].
  assert (Hk : k <= run_length p (rest st)).
  { pose proof (cap_le hi (run_length p (rest st))). lia. }
  destruct (run_length_firstn p (rest st) k Hk) as [Hall Hlen].
  exists (firstn k (rest st)). simpl. rewrite firstn_skipn, Hlen.
  repeat split; try assumption.
  intros h ->. simpl in Hhi. lia.
Qed.

Lemma hd_error_in {A : Type} (l : list A) (x : A) : hd_error l = Some x -> In x l.
Proof.
  destruct l; simpl; [discriminate|]. intros [= ->]. now left.
Qed.

Lemma run_decimal2 (st st' : mstate) :
  In st' (run decimal2 st) ->
  exists w, decimal2_token w /\ rest st = w ++ rest st' /\ pos st' = pos st + length w.
Proof.
  unfold decimal2, plus, one, times. intros H.
  apply in_run_seq in H as [s1 [H1 H]]. apply in_run_seq in H as [s2 [H2 H3]].
  apply in_run_rep_word in H1 as [w1 [R1 [A1 [L1 [_ [P1 _]]]]]].
  apply in_run_rep_word in H2 as [w2 [R2 [A2 [L2 [U2 [P2 _]]]]]].
  apply in_run_rep_word in H3 as [w3 [R3 [A3 [L3 [U3 [P3 _]]]]]].
  specialize (U2 1 eq_refl). specialize (U3 2 eq_refl).
  destruct w2 as [|c [|? ?]]; simpl in L2, U2; try lia.
  destruct w3 as [|d1 [|d2 [|? ?]]]; simpl in L3, U3; try lia.
  cbn [forallb] in A2, A3. rewrite andb_true_r in A2.
  unfold chr, ascii_eqb in A2. apply Ascii.eqb_eq in A2. subst c.
  apply andb_true_iff in A3 as [D1 D2]. rewrite andb_true_r in D2.
  exists (w1 ++ "."%char :: d1 :: d2 :: []). split; [|split].
  - exists w1, d1, d2. repeat split; try assumption.
    intros ->. simpl in L1. lia.
  - rewrite R1, R2, R3. rewrite <- app_assoc. reflexivity.
  - rewrite P3, P2, P1. rewrite length_app. simpl. lia.
Qed.

Lemma float_decimal2 (w : str) :
  decimal2_token w -> exists q, float w = Some q /\ (0 <= q)%Q.
Proof.
  intros [ds [d1 [d2 [-> [Hne [Hds [H1 H2]]]]]]].
  unfold float.
  rewrite (run_length_app is_digit ds ("."%char :: d1 :: d2 :: [])) by easy.
  rewrite firstn_app, Nat.sub_diag, firstn_all, skipn_app, Nat.sub_diag, skipn_all.
  simpl. rewrite H1, H2, app_nil_r, orb_true_r. simpl.
  eexists. split; [reflexivity|].
  unfold Qle. simpl. rewrite Z.mul_1_r.
  apply digits_val_nonneg. rewrite forallb_app, Hds. simpl. now rewrite H1, H2.
Qed.

Lemma attempt_price_re (p : nat) (s : str) (m : mstate) :
  attempt price_re p s = Some m -> decimal2_token (group1 m).
Proof.
  unfold attempt, price_re. intros H. apply hd_error_in in H.
  apply in_run_seq in H as [s1 [_ H]].
  simpl in H. apply in_map_iff in H as [s2 [<- H]].
  apply run_decimal2 in H as [w [Hw [R P]]].
  unfold group1. simpl. rewrite R, P.
  replace (pos s1 + length w - pos s1) with (length w + 0) by lia.
  rewrite firstn_app_2. simpl. now rewrite app_nil_r.
Qed.

Lemma last_in {A : Type} (l : list A) (d : A) : nonempty l = true -> In (last l d) l.
Proof.
  induction l as [|x [|y l] IH]; simpl; intros H; try discriminate.
  - now left.
  - right. now apply IH.
Qed.

(** ** [_extract_items] never raises *)

Lemma collect_items_ok (lines : list str) :
  forall acc, Forall item_ok acc ->
  exists items, collect_items lines acc = Ok items /\ Forall item_ok items.
Proof.
  induction lines as [|line lines IH]; intros acc Hacc; cbn [collect_items].
  - now exists acc.
  - destruct (nonempty (re_findall price_re line)) eqn:Hm; [|now apply IH].
    match goal with
    | |- context [if ?b then _ else _] => destruct b eqn:Hn; [|now apply IH]
    end.
    assert (Htok : decimal2_token (last (re_findall price_re line) [])).
    { pose proof (findall_groups price_re decimal2_token attempt_price_re line 0 0) as HF.
      rewrite Forall_forall in HF. apply HF. now apply last_in. }
    destruct (float_decimal2 _ Htok) as [q [-> Hq]].
    apply IH. apply Forall_app. split; [assumption|].
    constructor; [|constructor]. split; [|assumption]. simpl.
    apply andb_true_iff in Hn as [_ Hn]. now apply Nat.ltb_lt in Hn.
Qed.

Lemma extract_items_ok (lines : list str) :
  exists items, extract_items lines = Ok items /\ Forall item_ok items /\ length items <= 10.
Proof.
  unfold extract_items.
  destruct (collect_items_ok lines [] (Forall_nil _)) as [items [-> H]].
  exists (firstn 10 items). split; [reflexivity|]. split.
  - rewrite Forall_forall in *. intros it Hit. apply H.
    rewrite <- (firstn_skipn 10 items). apply in_app_iff. now left.
  - rewrite length_firstn. lia.
Qed.

(** ** The two tests of [_extract_merchant] *)

Lemma is_some_iff {A : Type} (o : option A) (b : bool) :
  (is_some o = true <-> b = true) -> is_some o = b.
Proof.
  destruct o, b; simpl; intros [H1 H2]; auto. symmetry. now apply H1.
Qed.

Lemma slash_or_hyphen_not_digit (c : ascii) : slash_or_hyphen c = true -> is_digit c = false.
Proof.
  unfold slash_or_hyphen, ascii_eqb. intros H.
  apply orb_true_iff in H as [H|H]; apply Ascii.eqb_eq in H; now subst.
Qed.

Lemma match_leading_date (line : str) :
  is_some (re_match leading_date_re line) = starts_with_date line.
Proof.
  apply is_some_iff. unfold re_match, attempt. rewrite hd_error_some.
  unfold leading_date_re, plus, one, starts_with_date. split.
  - intros [x H].
    apply in_run_seq in H as [s0 [H0 H]]. apply in_run_seq in H as [s1 [H1 H]].
    apply in_run_seq in H as [s2 [H2 H3]].
    simpl in H0. destruct H0 as [<-|[]].
    apply in_run_rep_word in H1 as [w1 [R1 [A1 [L1 _]]]].
    apply in_run_rep_word in H2 as [w2 [R2 [A2 [L2 [U2 _]]]]].
    apply in_run_rep_word in H3 as [w3 [R3 [A3 [L3 _]]]].
    specialize (U2 1 eq_refl).
    destruct w2 as [|c [|? ?]]; simpl in L2, U2; try lia.
    destruct w3 as [|d w3]; simpl in L3; try lia.
    cbn [forallb] in A2, A3. rewrite andb_true_r in A2.
    apply andb_true_iff in A3 as [D _].
    simpl in R1. rewrite R1, R2, R3.
    rewrite (run_length_app is_digit w1) by
      (try assumption; simpl; now apply slash_or_hyphen_not_digit).
    rewrite skipn_app, Nat.sub_diag, skipn_all. simpl.
    rewrite A2, D. simpl. rewrite andb_true_r. apply Nat.ltb_lt. lia.
  - intros H. apply andb_true_iff in H as [Hn H]. apply Nat.ltb_lt in Hn.
    destruct (skipn (run_length is_digit line) line) as [|c [|d tl]] eqn:E;
      try discriminate.
    apply andb_true_iff in H as [Hc Hd].
    set (st0 := MState 0 line None).
    set (s1 := advance (run_length is_digit line) st0).
    exists (advance 1 (advance 1 s1)).
    apply in_run_seq. exists st0. split; [simpl; now left|].
    apply in_run_seq. exists s1. split.
    { apply in_run_rep. exists (run_length is_digit line). simpl. split; [lia|reflexivity]. }
    apply in_run_seq. exists (advance 1 s1). split.
    { apply in_run_rep. exists 1. split; [|reflexivity].
      simpl. rewrite E. simpl. rewrite Hc. lia. }
    apply in_run_rep. exists 1. split; [|reflexivity].
    simpl. rewrite E. simpl. rewrite Hd. lia.
Qed.

Lemma match_pure_numeric (line : str) :
  is_some (re_match pure_numeric_re line) = nonempty line && forallb numeric_class line.
Proof.
  apply is_some_iff. unfold re_match, attempt. rewrite hd_error_some.
  unfold pure_numeric_re, plus. split.
  - intros [x H].
    apply in_run_seq in H as [s0 [H0 H]]. apply in_run_seq in H as [s1 [H1 H2]].
    simpl in H0. destruct H0 as [<-|[]].
    apply in_run_rep_word in H1 as [w1 [R1 [A1 [L1 _]]]].
    simpl in R1. rewrite R1.
    assert (Hne : nonempty (w1 ++ rest s1) = true).
    { destruct w1; simpl in *; [lia|reflexivity]. }
    rewrite Hne, forallb_app, A1. simpl.
    simpl in H2. destruct (rest s1) as [|c [|? ?]]; try contradiction; [reflexivity|].
    destruct (ascii_eqb c nl) eqn:Ec; [|contradiction].
    unfold ascii_eqb in Ec. apply Ascii.eqb_eq in Ec. subst c. reflexivity.
  - intros H. apply andb_true_iff in H as [Hne Hall].
    apply run_length_all in Hall.
    set (st0 := MState 0 line None).
    exists (advance (length line) st0).
    apply in_run_seq. exists st0. split; [simpl; now left|].
    apply in_run_seq. exists (advance (length line) st0). split.
    + apply in_run_rep. exists (length line). simpl. split; [|reflexivity].
      rewrite Hall. destruct line; simpl in *; [discriminate|lia].
    + simpl. rewrite skipn_all. now left.
Qed.

Lemma first_merchant_rule (lines : list str) :
  first_merchant lines =
  match find (fun line => negb (disqualified dollar line)) lines with
  | Some line => line
  | None => unknown_merchant
  end.
Proof.
  induction lines as [|line lines IH]; simpl; [reflexivity|].
  rewrite match_leading_date, match_pure_numeric, IH.
  unfold disqualified.
  change (solely_numeric dollar line) with (forallb numeric_class line).
  destruct (starts_with_date line); simpl; [reflexivity|].
  destruct (length line <? 3) eqn:Hlen; simpl.
  - now rewrite orb_true_r.
  - rewrite orb_false_r.
    assert (nonempty line = true) as ->.
    { destruct line; [discriminate|reflexivity]. }
    simpl. now destruct (forallb numeric_class line).
Qed.

(** ** The amounts list and its maximum *)

Section AmountFacts.
Variable F : Type.
Variable to_float : str -> option F.
Variable fle : F -> F -> bool.
Variables lo hi : F.

Lemma visit_matches_in (ms : list str) :
  forall (acc : list F) (a : F),
  In a (fold_left (visit_match F to_float fle lo hi) ms acc) <->
  In a acc \/
  exists m, In m ms /\ to_float m = Some a /\ reasonable F fle lo hi a = true.
Proof.
  induction ms as [|m ms IH]; intros acc a; simpl.
  - split; [now left|]. intros [H|[m [[] _]]]. exact H.
  - rewrite IH. unfold visit_match. split.
    + intros [H|[m' [Hin H]]]; [|right; exists m'; tauto].
      destruct (to_float m) as [x|] eqn:Ef; [|now left].
      destruct (reasonable F fle lo hi x) eqn:Er; [|now left].
      apply in_app_iff in H as [H|[<-|[]]]; [now left|].
      right. exists m. tauto.
    + intros [H|[m' [[<-|Hin] [Ef Er]]]].
      * left. destruct (to_float m) as [x|]; [|exact H].
        destruct (reasonable F fle lo hi x); [|exact H].
        apply in_app_iff. now left.
      * left. rewrite Ef, Er. apply in_app_iff. right. now left.
      * right. exists m'. tauto.
Qed.

Lemma visit_patterns_in (text_lower : str) (ps : list regex) :
  forall (acc : list F) (a : F),
  In a (fold_left (visit_pattern F to_float fle lo hi text_lower) ps acc) <->
  In a acc \/
  exists p m, In p ps /\ In m (re_findall p text_lower) /\
              to_float m = Some a /\ reasonable F fle lo hi a = true.
Proof.
  induction ps as [|p ps IH]; intros acc a; simpl.
  - split; [now left|]. intros [H|[p [m [[] _]]]]. exact H.
  - rewrite IH. unfold visit_pattern. rewrite visit_matches_in. split.
    + intros [[H|[m H]]|[p' [m H]]].
      * now left.
      * right. exists p, m. tauto.
      * right. exists p', m. tauto.
    + intros [H|[p' [m [[<-|Hin] H]]]].
      * left. now left.
      * left. right. exists m. tauto.
      * right. exists p', m. tauto.
Qed.

Lemma collect_amounts_candidate (text : str) (a : F) :
  In a (collect_amounts F to_float fle lo hi text) <->
  candidate F to_float fle lo hi text a.
Proof.
  unfold collect_amounts, candidate. rewrite visit_patterns_in. simpl. tauto.
Qed.

Lemma py_max_in (l : list F) : forall a, In (py_max F fle a l) (a :: l).
Proof.
  unfold py_max. induction l as [|x l IH]; intros a; simpl; [now left|].
  destruct (IH (if fle x a then a else x)) as [H|H]; [|now right; right].
  rewrite <- H. destruct (fle x a); [now left|right; now left].
Qed.

Hypothesis fle_total : forall x y, fle x y = true \/ fle y x = true.
Hypothesis fle_trans : forall x y z, fle x y = true -> fle y z = true -> fle x z = true.

End AmountFacts.



(** ** Texts without digits *)

Lemma lower_char_digit (c : ascii) : is_digit (lower_char c) = is_digit c.
Proof.
  destruct c as [[] [] [] [] [] [] [] []]; reflexivity.
Qed.

Lemma digitless_lower (s : str) : digitless (lower s) = digitless s.
Proof.
  induction s as [|c s IH]; simpl; [reflexivity|]. now rewrite lower_char_digit, IH.
Qed.

Lemma lstrip_in (s : str) (c : ascii) : In c (lstrip s) -> In c s.
Proof.
  induction s as [|x s IH]; simpl; [easy|].
  destruct (is_space x); [|easy]. intros H. right. now apply IH.
Qed.

Lemma strip_in (s : str) (c : ascii) : In c (strip s) -> In c s.
Proof.
  unfold strip. intros H. apply in_rev in H. apply lstrip_in in H.
  apply in_rev in H. now apply lstrip_in.
Qed.

Lemma split_nl_in (s : str) (seg : str) (c : ascii) :
  In seg (split_nl s) -> In c seg -> In c s.
Proof.
  revert seg. induction s as [|x s IH]; intros seg Hseg Hc; simpl in Hseg.
  - destruct Hseg as [<-|[]]. contradiction.
  - destruct (ascii_eqb x nl).
    + destruct Hseg as [<-|Hseg]; [contradiction|]. right. now apply IH with seg.
    + destruct (split_nl s) as [|seg0 segs]; simpl in Hseg.
      * destruct Hseg as [<-|[]]. destruct Hc as [<-|[]]. now left.
      * destruct Hseg as [<-|Hseg].
        -- destruct Hc as [<-|Hc]; [now left|]. right. apply IH with seg0; [now left|easy].
        -- right. apply IH with seg; [now right|easy].
Qed.

Lemma lines_of_in (text line : str) (c : ascii) :
  In line (lines_of text) -> In c line -> In c text.
Proof.
  unfold lines_of. intros H Hc. apply filter_In in H as [H _].
  apply in_map_iff in H as [seg [<- Hseg]]. apply strip_in in Hc.
  now apply split_nl_in with seg.
Qed.

Lemma digitless_lines (text : str) :
  digitless text = true -> Forall (fun line => digitless line = true) (lines_of text).
Proof.
  unfold digitless. rewrite forallb_forall. intros H.
  apply Forall_forall. intros line Hline. apply forallb_forall. intros c Hc.
  apply H. now apply lines_of_in with line.
Qed.

Lemma extract_amount_digitless (text : str) :
  digitless text = true -> extract_amount text = None.
Proof.
  intros H. unfold extract_amount, extract_amount_with.
  destruct (collect_amounts Q float Qle_bool 0.01%Q 10000%Q text) as [|a l] eqn:E;
    [reflexivity|].
  assert (Ha : In a (collect_amounts Q float Qle_bool 0.01%Q 10000%Q text))
    by (rewrite E; now left).
  apply collect_amounts_candidate in Ha as [p [m [Hp [Hm _]]]].
  pose proof digit_bound_amount_patterns as HF. rewrite Forall_forall in HF.
  unfold re_findall in Hm. rewrite findall_digitless in Hm; [contradiction|now apply HF|].
  now rewrite digitless_lower.
Qed.

Lemma collect_items_digitless (lines : list str) (acc : list Item) :
  Forall (fun line => digitless line = true) lines -> collect_items lines acc = Ok acc.
Proof.
  induction 1 as [|line lines Hl _ IH]; cbn [collect_items]; [reflexivity|].
  unfold re_findall. rewrite findall_digitless; [exact IH|apply digit_bound_price_re|exact Hl].
Qed.

Lemma first_merchant_nonempty (lines : list str) : nonempty (first_merchant lines) = true.
Proof.
  induction lines as [|line lines IH]; simpl; [reflexivity|].
  destruct (is_some (re_match leading_date_re line)); simpl; [exact IH|].
  destruct (length line <? 3) eqn:E; [exact IH|].
  destruct (is_some (re_match pure_numeric_re line)); [exact IH|].
  destruct line; [discriminate|reflexivity].
Qed.

Lemma determine_category_values (m : str) (its : list Item) :
  In (determine_category m its)
     (map value [FOOD; SHOPPING; TRANSPORT; BILLS; HEALTHCARE; OTHER]).
Proof.
  unfold determine_category.
  repeat match goal with
         | |- context [if any_keyword ?k ?s then _ else _] => destruct (any_keyword k s)
         end; simpl; tauto.
Qed.

(** ** The claims *)

(** C1 (as amended): on the text of scenario A the extraction stage returns
    merchant "Walmart Supercenter", date "01/15/2024", amount 6.49, category
    "shopping" and three items in the order of the lines: Milk 3.99,
    Bread 2.50 and TOTAL 6.49, the total line being a line with a price like
    the others. *)
Theorem C1_scenario_a :
  parse_expense_data scenario_a =
  Ok (MkParsed (Some 6.49%Q) (Some (s2l "01/15/2024")) (s2l "Walmart Supercenter")
        [MkItem (s2l "Milk") 3.99%Q; MkItem (s2l "Bread") 2.50%Q;
         MkItem (s2l "TOTAL") 6.49%Q]
        (s2l "shopping") (s2l "Receipt from Walmart Supercenter")).
Proof.
  vm_compute. reflexivity.
Qed.

(** C1, as stated, fails: the items of scenario A are not exactly Milk and
    Bread. *)
Lemma C1_items_not_two :
  ~ exists d, parse_expense_data scenario_a = Ok d /\
              merchant d = s2l "Walmart Supercenter" /\
              date d = Some (s2l "01/15/2024") /\
              items d = [MkItem (s2l "Milk") 3.99%Q; MkItem (s2l "Bread") 2.50%Q] /\
              amount d = Some 6.49%Q /\
              category d = s2l "shopping".
Proof.
  intros [d [H [_ [_ [Hi _]]]]].
  assert (E : length (items d) = 3).
  { assert (Hd : Ok d = parse_expense_data scenario_a) by (symmetry; exact H).
    vm_compute in Hd. injection Hd as ->. reflexivity. }
  rewrite Hi in E. discriminate.
Qed.



(** C3 (as amended): when the recognizer returns a text without digits, the
    pipeline result is a success whose amount is absent and whose item list
    is empty; the merchant is "Unknown Merchant" and the category "other"
    when each of the first five trimmed non-empty lines is disqualified, and
    otherwise the merchant is the first line that is not and the category is
    the one of that merchant. *)
Theorem C3_text_without_digits
    (Image : Type) (size : Image -> nat) (imdecode : list Byte.byte -> exc (option Image))
    (enhance : Image -> exc Image) (image_to_string : Image -> exc str)
    (file : UploadFile) (image : Image) (text : str) :
  fst (read_image_safely Image size imdecode file) = Some image ->
  image_to_string (fst (preprocess_image Image enhance image)) = Ok text ->
  digitless text = true ->
  exists d,
    fst (ocr_parse_receipt Image size imdecode enhance image_to_string file) =
      MkOcrResult true None text (Some d) /\
    amount d = None /\
    items d = [] /\
    merchant d = merchant_rule dollar (lines_of text) /\
    category d = determine_category (merchant d) [] /\
    (forallb (disqualified dollar) (firstn 5 (lines_of text)) = true ->
     merchant d = unknown_merchant /\ category d = value OTHER).
Proof.
  intros Hread Hocr Hd.
  assert (Hitems : extract_items (lines_of text) = Ok []).
  { unfold extract_items. now rewrite collect_items_digitless by now apply digitless_lines. }
  assert (Hparse : parse_expense_data text =
                   Ok (MkParsed None (extract_date text) (extract_merchant (lines_of text)) []
                         (determine_category (extract_merchant (lines_of text)) [])
                         (describe (extract_merchant (lines_of text))))).
  { unfold parse_expense_data. now rewrite Hitems, extract_amount_digitless. }
  eexists. split.
  - unfold ocr_parse_receipt.
    destruct (read_image_safely Image size imdecode file) as [im t1]. simpl in Hread. subst im.
    destruct (preprocess_image Image enhance image) as [pim t2]. simpl in Hocr.
    rewrite Hocr, Hparse. reflexivity.
  - simpl. unfold extract_merchant. rewrite first_merchant_rule.
    do 4 (split; [reflexivity|]).
    intros Hall. rewrite forallb_forall in Hall.
    destruct (find _ _) as [line|] eqn:E; [|split; reflexivity].
    apply find_some in E as [Hin Hq]. rewrite (Hall line Hin) in Hq. discriminate.
Qed.

(** C3 at a text of one line, "thank you", read from a file that decodes. *)
Lemma C3_thank_you :
  exists d,
    fst (ocr_parse_receipt unit (fun _ => 1) (fun _ => Ok (Some tt)) (fun i => Ok i)
           (fun _ => Ok (s2l "thank you")) (MkUpload (Some (s2l "image/png")) [])) =
      MkOcrResult true None (s2l "thank you") (Some d) /\
    amount d = None /\
    items d = [] /\
    merchant d = merchant_rule dollar (lines_of (s2l "thank you")) /\
    category d = determine_category (merchant d) [] /\
    (forallb (disqualified dollar) (firstn 5 (lines_of (s2l "thank you"))) = true ->
     merchant d = unknown_merchant /\ category d = value OTHER).
Proof.
  apply (C3_text_without_digits unit (fun _ => 1) (fun _ => Ok (Some tt)) (fun i => Ok i)
           (fun _ => Ok (s2l "thank you")) (MkUpload (Some (s2l "image/png")) []) tt
           (s2l "thank you")); reflexivity.
Defined.

(** C3, as stated, fails: "Walmart Supercenter" has no digit, and its
    merchant is not the sentinel and its category not "other". *)
Lemma C3_merchant_without_digits :
  digitless (s2l "Walmart Supercenter") = true /\
  parse_expense_data (s2l "Walmart Supercenter") =
    Ok (MkParsed None None (s2l "Walmart Supercenter") [] (s2l "shopping")
          (s2l "Receipt from Walmart Supercenter")) /\
  s2l "Walmart Supercenter" <> unknown_merchant /\
  s2l "shopping" <> value OTHER.
Proof.
  repeat split; try (vm_compute; reflexivity); vm_compute; discriminate.
Qed.

(** What holds of the item of every line holds of every collected item,
    when [to_float] returns on the last price of every line. *)
Lemma collect_items_with_ok (F : Type) (to_float : str -> option F)
    (P : Priced.t F -> Prop) (lines : list str) :
  (forall line, In line lines ->
     nonempty (re_findall price_re line) = true ->
     2 < length (item_name_of line) ->
     exists p, to_float (last (re_findall price_re line) []) = Some p /\
               P (Priced.Make (item_name_of line) p)) ->
  forall acc, Forall P acc ->
  exists its, collect_items_with F to_float lines acc = Ok its /\ Forall P its.
Proof.
  induction lines as [|line lines IH]; intros HP acc Hacc; cbn [collect_items_with].
  - now exists acc.
  - assert (HP' : forall l, In l lines ->
              nonempty (re_findall price_re l) = true -> 2 < length (item_name_of l) ->
              exists p, to_float (last (re_findall price_re l) []) = Some p /\
                        P (Priced.Make (item_name_of l) p)).
    { intros l Hl. apply HP. now right. }
    destruct (nonempty (re_findall price_re line)) eqn:Hm; [|now apply IH].
    fold (item_name_of line).
    destruct (nonempty (item_name_of line) && (2 <? length (item_name_of line))) eqn:Hn;
      [|now apply IH].
    apply andb_true_iff in Hn as [_ Hn]. apply Nat.ltb_lt in Hn.
    destruct (HP line (or_introl eq_refl) Hm Hn) as [p [-> Hp]].
    apply IH; [exact HP'|]. apply Forall_app. split; [exact Hacc|].
    constructor; [exact Hp|constructor].
Qed.

Lemma last_split {A : Type} (l : list A) (d : A) :
  nonempty l = true -> l = removelast l ++ [last l d].
Proof.
  intros H. apply app_removelast_last. now destruct l.
Qed.

(** With rationals for the floats, the items are those of [extract_items]. *)
Lemma collect_items_instance (lines : list str) :
  forall acc,
  collect_items lines (map to_item acc) =
  match collect_items_with Q float lines acc with
  | Ok its => Ok (map to_item its)
  | Raise e => Raise e
  end.
Proof.
  induction lines as [|line lines IH]; intros acc;
    cbn [collect_items collect_items_with]; [reflexivity|].
  destruct (nonempty (re_findall price_re line)); [|apply IH].
  match goal with
  | |- context [if ?b then _ else _] => destruct b; [|apply IH]
  end.
  destruct (float (last (re_findall price_re line) [])) as [q|]; [|reflexivity].
  rewrite <- IH. now rewrite map_app.
Qed.

Lemma extract_items_instance (lines : list str) :
  extract_items lines =
  match extract_items_with Q float lines with
  | Ok its => Ok (map to_item its)
  | Raise e => Raise e
  end.
Proof.
  unfold extract_items, extract_items_with.
  change (collect_items lines []) with (collect_items lines (map to_item [])).
  rewrite (collect_items_instance lines []).
  destruct (collect_items_with Q float lines []); [|reflexivity].
  now rewrite firstn_map.
Qed.

(** C4 (as amended): whatever the floats, as long as [float] returns a
    value of zero or more on every token of digits, a point and two digits,
    ItemExtractor returns on every input, and every item it returns has a
    name of more than 2 characters and a price that is the float of the last
    monetary token of one of the lines, hence zero or more. *)
Theorem C4_items_well_formed
    (F : Type) (to_float : str -> option F) (fle : F -> F -> bool) (zero : F)
    (float_of_token : forall tok, decimal2_token tok ->
                        exists p, to_float tok = Some p /\ fle zero p = true)
    (lines : list str) :
  exists its,
    extract_items_with F to_float lines = Ok its /\
    Forall (fun it =>
              2 < length (Priced.name it) /\
              fle zero (Priced.price it) = true /\
              exists line before tok,
                In line lines /\
                Priced.name it = item_name_of line /\
                re_findall price_re line = before ++ [tok] /\
                decimal2_token tok /\
                to_float tok = Some (Priced.price it)) its.
Proof.
  set (P := fun it : Priced.t F =>
              2 < length (Priced.name it) /\
              fle zero (Priced.price it) = true /\
              exists line before tok,
                In line lines /\
                Priced.name it = item_name_of line /\
                re_findall price_re line = before ++ [tok] /\
                decimal2_token tok /\
                to_float tok = Some (Priced.price it)).
  assert (H : exists all, collect_items_with F to_float lines [] = Ok all /\ Forall P all).
  { apply collect_items_with_ok; [|constructor].
    intros line Hline Hm Hn.
    assert (Htok : decimal2_token (last (re_findall price_re line) [])).
    { pose proof (findall_groups price_re decimal2_token attempt_price_re line 0 0) as HF.
      rewrite Forall_forall in HF. apply HF. now apply last_in. }
    destruct (float_of_token _ Htok) as [p [Ep Hp]].
    exists p. split; [exact Ep|]. unfold P. simpl.
    split; [exact Hn|]. split; [exact Hp|].
    exists line, (removelast (re_findall price_re line)), (last (re_findall price_re line) []).
    repeat split; try assumption. now apply last_split. }
  destruct H as [all [E Hall]]. exists (firstn 10 all).
  unfold extract_items_with. rewrite E. split; [reflexivity|].
  rewrite Forall_forall in *. intros it Hit. apply Hall.
  rewrite <- (firstn_skipn 10 all). apply in_app_iff. now left.
Qed.

(** C4 with rationals for the floats, on a line whose price is 0.00. *)
Lemma C4_free_sample :
  exists its,
    extract_items_with Q float [s2l "Free sample 0.00"] = Ok its /\
    Forall (fun it =>
              2 < length (Priced.name it) /\
              Qle_bool 0 (Priced.price it) = true /\
              exists line before tok,
                In line [s2l "Free sample 0.00"] /\
                Priced.name it = item_name_of line /\
                re_findall price_re line = before ++ [tok] /\
                decimal2_token tok /\
                float tok = Some (Priced.price it)) its.
Proof.
  apply (C4_items_well_formed Q float Qle_bool 0%Q).
  intros tok H. destruct (float_decimal2 tok H) as [q [E Hq]].
  exists q. split; [exact E|]. now apply Qle_bool_iff.
Defined.

(** C4, as stated, fails: a line whose price is 0.00 gives an item whose
    price is not above zero. *)
Lemma C4_zero_price :
  extract_items [s2l "Free sample 0.00"] = Ok [MkItem (s2l "Free sample") 0.00%Q] /\
  ~ (0 < price (MkItem (s2l "Free sample") 0.00%Q))%Q.
Proof.
  split; [vm_compute; reflexivity|]. simpl. unfold Qlt. simpl. lia.
Qed.

(** C5: the code gives every receipt the description "Receipt from " followed
    by the merchant, the sentinel included; for the empty text that is
    "Receipt from Unknown Merchant", where the claim has "Receipt expense". *)
Theorem C5_description_of_sentinel :
  parse_expense_data [] =
    Ok (MkParsed None None unknown_merchant [] (s2l "other")
          (s2l "Receipt from Unknown Merchant")) /\
  forall text, exists d,
    parse_expense_data text = Ok d /\ description d = s2l "Receipt from " ++ merchant d.
Proof.
  split; [vm_compute; reflexivity|].
  intros text. unfold parse_expense_data.
  destruct (extract_items_ok (lines_of text)) as [its [-> _]].
  eexists. split; [reflexivity|]. simpl. unfold describe, extract_merchant.
  now rewrite first_merchant_nonempty.
Qed.

(** C6 (as amended): MerchantExtractor returns, verbatim, the first of the
    first five lines that is not disqualified, a line being disqualified when
    it starts with a digit group, a slash or hyphen and a digit group, or
    consists solely of digits, whitespace, hyphens, periods and dollar signs,
    or has fewer than 3 characters; it returns "Unknown Merchant" when there
    is none.  What it returns neither starts with such a date nor consists
    solely of those characters, and matches neither pattern of the code. *)
Theorem C6_merchant_rule (lines : list str) :
  extract_merchant lines = merchant_rule dollar lines /\
  starts_with_date (extract_merchant lines) = false /\
  solely_numeric dollar (extract_merchant lines) = false /\
  re_match leading_date_re (extract_merchant lines) = None /\
  re_match pure_numeric_re (extract_merchant lines) = None.
Proof.
  assert (E : extract_merchant lines = merchant_rule dollar lines).
  { unfold extract_merchant, merchant_rule. apply first_merchant_rule. }
  assert (H : starts_with_date (extract_merchant lines) = false /\
              solely_numeric dollar (extract_merchant lines) = false).
  { rewrite E. unfold merchant_rule.
    destruct (find _ _) as [line|] eqn:F; [|split; vm_compute; reflexivity].
    apply find_some in F as [_ F]. unfold disqualified in F.
    apply negb_true_iff in F. apply orb_false_iff in F as [F _].
    now apply orb_false_iff in F. }
  destruct H as [H1 H2]. repeat split; try assumption.
  - pose proof (match_leading_date (extract_merchant lines)) as M. rewrite H1 in M.
    now destruct (re_match leading_date_re (extract_merchant lines)).
  - pose proof (match_pure_numeric (extract_merchant lines)) as M.
    change (forallb numeric_class (extract_merchant lines))
      with (solely_numeric dollar (extract_merchant lines)) in M.
    rewrite H2, andb_false_r in M.
    now destruct (re_match pure_numeric_re (extract_merchant lines)).
Qed.

(** C6, as stated, fails: a line of three pound signs consists solely of
    currency symbols, and the code returns it as the merchant. *)
Lemma C6_pound_signs :
  lines_of [pound; pound; pound] = [[pound; pound; pound]] /\
  solely_numeric currency_symbol [pound; pound; pound] = true /\
  merchant_rule currency_symbol (lines_of [pound; pound; pound]) = unknown_merchant /\
  extract_merchant (lines_of [pound; pound; pound]) = [pound; pound; pound] /\
  [pound; pound; pound] <> unknown_merchant.
Proof.
  repeat split; try (vm_compute; reflexivity). vm_compute. discriminate.
Qed.

(** C7: a file whose declared content type does not begin with "image/" is
    answered with the failure "File must be an image" (status 400), and no
    call is made: the file is not read and not decoded. *)
Theorem C7_not_an_image
    (Image : Type) (size : Image -> nat) (imdecode : list Byte.byte -> exc (option Image))
    (enhance : Image -> exc Image) (image_to_string : Image -> exc str)
    (file : UploadFile) :
  (forall ct, content_type file = Some ct -> starts_with (s2l "image/") ct = false) ->
  parse_receipt Image size imdecode enhance image_to_string file =
    (HTTPException 400 (s2l "File must be an image"), []).
Proof.
  intros H. unfold parse_receipt, is_image_type.
  destruct (content_type file) as [ct|]; [|reflexivity].
  now rewrite (H ct eq_refl), andb_false_r.
Qed.

(** C7 at the content type "text/plain". *)
Lemma C7_text_plain :
  parse_receipt unit (fun _ => 1) (fun _ => Ok (Some tt)) (fun i => Ok i)
    (fun _ => Ok (s2l "TOTAL 1.00")) (MkUpload (Some (s2l "text/plain")) []) =
    (HTTPException 400 (s2l "File must be an image"), []).
Proof.
  apply C7_not_an_image. intros ct [= <-]. reflexivity.
Defined.

(** C8: ItemExtractor returns on every input, and the list it returns has at
    most 10 entries. *)
Theorem C8_at_most_ten_items (lines : list str) :
  exists its, extract_items lines = Ok its /\ length its <= 10.
Proof.
  destruct (extract_items_ok lines) as [its [E [_ H]]]. now exists its.
Qed.

(** C9: the category CategoryClassifier returns is the same for any two item
    lists; it depends on the merchant alone. *)
Theorem C9_category_ignores_items (m : str) (items1 items2 : list Item) :
  determine_category m items1 = determine_category m items2.
Proof.
  reflexivity.
Qed.

(** C10: CategoryClassifier never returns "entertainment"; its result is one
    of food, shopping, transport, bills, healthcare and other. *)
Theorem C10_never_entertainment (m : str) (its : list Item) :
  determine_category m its <> value ENTERTAINMENT /\
  In (determine_category m its)
     (map value [FOOD; SHOPPING; TRANSPORT; BILLS; HEALTHCARE; OTHER]).
Proof.
  split; [|apply determine_category_values].
  pose proof (determine_category_values m its) as H. simpl in H.
  intros E. rewrite E in H.
  repeat destruct H as [H|H]; try discriminate H. exact H.
Qed.

(** ** Further properties of the code *)

(** *** The lines of a text *)

Lemma lstrip_split (s : str) :
  exists ws, s = ws ++ lstrip s /\ forallb is_space ws = true.
Proof.
  induction s as [|c s [ws [E H]]]; simpl.
  - now exists [].
  - destruct (is_space c) eqn:Hc.
    + exists (c :: ws). simpl. rewrite Hc, H. now rewrite <- E.
    + now exists [].
Qed.

Lemma lstrip_hd (s : str) (c : ascii) :
  hd_error (lstrip s) = Some c -> is_space c = false.
Proof.
  induction s as [|x s IH]; simpl; [discriminate|].
  destruct (is_space x) eqn:Hx; [exact IH|]. simpl. now intros [= <-].
Qed.

Lemma strip_prefix (s : str) : exists ws, lstrip s = strip s ++ ws.
Proof.
  unfold strip. destruct (lstrip_split (rev (lstrip s))) as [ws [E _]].
  exists (rev ws). rewrite <- rev_app_distr, <- E. now rewrite rev_involutive.
Qed.

Lemma strip_trimmed (s : str) : trimmed (strip s).
Proof.
  split; intros c Hc.
  - destruct (strip_prefix s) as [ws E].
    apply (lstrip_hd s). rewrite E. now destruct (strip s).
  - unfold strip in Hc. rewrite rev_involutive in Hc. now apply lstrip_hd in Hc.
Qed.

Lemma split_nl_no_newline (s seg : str) : In seg (split_nl s) -> ~ In nl seg.
Proof.
  revert seg. induction s as [|x s IH]; intros seg H; simpl in H.
  - destruct H as [<-|[]]. easy.
  - destruct (ascii_eqb x nl) eqn:Ex.
    + destruct H as [<-|H]; [easy|now apply IH].
    + assert (Hx : x <> nl).
      { intros ->. unfold ascii_eqb in Ex. now rewrite Ascii.eqb_refl in Ex. }
      destruct (split_nl s) as [|seg0 segs]; simpl in H.
      * destruct H as [<-|[]]. intros [E|[]]. now apply Hx.
      * destruct H as [<-|H].
        -- intros [E|Hin]; [now apply Hx|]. apply (IH seg0); [now left|exact Hin].
        -- apply IH. now right.
Qed.

(** X1: every line the extractors are given is non-empty, holds no newline
    and has no whitespace at either end. *)
Theorem X1_lines_are_clean (text : str) :
  Forall (fun line => line <> [] /\ ~ In nl line /\ trimmed line) (lines_of text).
Proof.
  apply Forall_forall. intros line H. unfold lines_of in H.
  apply filter_In in H as [H Hne]. apply in_map_iff in H as [seg [<- Hseg]].
  split; [|split].
  - intros E. rewrite E in Hne. discriminate.
  - intros Hin. apply strip_in in Hin. now apply (split_nl_no_newline text seg).
  - apply strip_trimmed.
Qed.

(** *** Dates *)

Lemma consumes_rep (p : ascii -> bool) (lo : nat) (hi : option nat) :
  consumes lo (Rep p lo hi).
Proof.
  intros st st' H. apply in_run_rep in H as [k [[Hk _] ->]]. simpl. lia.
Qed.

Lemma consumes_seq (n m : nat) (a b : regex) :
  consumes n a -> consumes m b -> consumes (n + m) (Seq a b).
Proof.
  intros Ha Hb st st' H. apply in_run_seq in H as [s1 [H1 H2]].
  apply Ha in H1. apply Hb in H2. lia.
Qed.

Lemma consumes_grp (n : nat) (a : regex) : consumes n a -> consumes n (Grp a).
Proof.
  intros Ha st st' H. simpl in H. apply in_map_iff in H as [s1 [<- H]]. simpl.
  now apply Ha.
Qed.

Lemma consumes_le (n m : nat) (r : regex) : m <= n -> consumes n r -> consumes m r.
Proof.
  intros Hle H st st' Hin. apply H in Hin. lia.
Qed.

Lemma date_patterns_consume : Forall (consumes 6) date_patterns.
Proof.
  unfold date_patterns, plus, one, opt, times.
  repeat apply Forall_cons; try apply Forall_nil; apply consumes_grp.
  - apply (consumes_seq 1 5), (consumes_seq 1 4), (consumes_seq 1 3), (consumes_seq 1 2);
      apply consumes_rep.
  - apply consumes_le with (4 + (1 + (1 + (1 + 1)))); [lia|].
    repeat apply consumes_seq; apply consumes_rep.
  - apply consumes_le with (1 + (1 + (1 + (1 + 4)))); [lia|].
    repeat apply consumes_seq; apply consumes_rep.
  - apply consumes_le with (1 + (1 + (1 + (0 + (1 + 4))))); [lia|].
    repeat apply consumes_seq; apply consumes_rep.
Qed.

Lemma date_patterns_grouped : Forall (fun r => exists a, r = Grp a) date_patterns.
Proof.
  unfold date_patterns. repeat apply Forall_cons; try apply Forall_nil; eexists; reflexivity.
Qed.

(** Group 1 of a pattern that is one group is the text the match consumed. *)
Lemma attempt_grp (a : regex) (p : nat) (s : str) (m : mstate) :
  attempt (Grp a) p s = Some m ->
  exists k, k <= length s /\ pos m = p + k /\ group1 m = firstn k s.
Proof.
  unfold attempt. intros H. apply hd_error_in in H. simpl in H.
  apply in_map_iff in H as [s1 [<- H]].
  apply run_consumes in H as [k [Hk [P R]]]. simpl in *.
  exists k. repeat split; try assumption. unfold group1. simpl. f_equal. lia.
Qed.

Lemma search_from_found (r : regex) (s : str) :
  forall p p' s' m,
  search_from r p s = Some (p', s', m) ->
  (exists pre, s = pre ++ s') /\ attempt r p' s' = Some m.
Proof.
  induction s as [|c s IH]; intros p p' s' m H; simpl in H.
  - destruct (attempt r p []) eqn:E; [|discriminate].
    injection H as <- <- <-. split; [now exists []|exact E].
  - destruct (attempt r p (c :: s)) eqn:E.
    + injection H as <- <- <-. split; [now exists []|exact E].
    + apply IH in H as [[pre ->] H]. split; [now exists (c :: pre)|exact H].
Qed.

Lemma search_group_verbatim (a : regex) (n : nat) (text d : str) :
  consumes n (Grp a) -> re_search_group1 (Grp a) text = Some d ->
  infix d text /\ n <= length d.
Proof.
  unfold re_search_group1. intros Hn H.
  destruct (search_from (Grp a) 0 text) as [[[p s] m]|] eqn:E; [|discriminate].
  injection H as <-. apply search_from_found in E as [[pre ->] E].
  pose proof E as E'. apply attempt_grp in E' as [k [Hk [P ->]]].
  split.
  - exists pre, (skipn k s). now rewrite firstn_skipn.
  - unfold attempt in E. apply hd_error_in in E. apply Hn in E. simpl in E.
    rewrite length_firstn. lia.
Qed.

(** X2: the date DateExtractor returns is a piece of the text as it stands,
    of at least 6 characters. *)
Theorem X2_date_is_verbatim (text d : str) :
  extract_date text = Some d -> infix d text /\ 6 <= length d.
Proof.
  unfold extract_date.
  pose proof date_patterns_consume as Hc. pose proof date_patterns_grouped as Hg.
  induction date_patterns as [|r rs IH]; simpl; [discriminate|].
  inversion Hc as [|? ? Hr Hrs]; subst. inversion Hg as [|? ? [a ->] Hgs]; subst.
  destruct (re_search_group1 (Grp a) text) as [g|] eqn:E.
  - intros [= <-]. now apply (search_group_verbatim a).
  - now apply IH.
Qed.

(** X2 on the text of scenario A. *)
Lemma X2_date_scenario_a :
  infix (s2l "01/15/2024") scenario_a /\ 6 <= length (s2l "01/15/2024").
Proof.
  apply X2_date_is_verbatim. vm_compute. reflexivity.
Defined.

Lemma search_from_digitless (r : regex) (s : str) :
  digit_bound r -> digitless s = true -> forall p, search_from r p s = None.
Proof.
  intros Hr. induction s as [|c s IH]; intros Hs p; simpl.
  - now rewrite attempt_digitless.
  - rewrite attempt_digitless by assumption. apply IH.
    simpl in Hs. now apply andb_true_iff in Hs.
Qed.

Lemma digit_bound_date_patterns : Forall digit_bound date_patterns.
Proof.
  unfold date_patterns, plus, one, opt, times.
  repeat apply Forall_cons; try apply Forall_nil; apply digit_bound_grp.
  - apply digit_bound_seq_l, digit_bound_plus.
  - apply digit_bound_seq_l, digit_bound_plus.
  - apply digit_bound_seq_l, digit_bound_plus.
  - do 2 apply digit_bound_seq_r. apply digit_bound_seq_l, digit_bound_plus.
Qed.

(** X3: a text without a digit has no date. *)
Theorem X3_no_digit_no_date (text : str) :
  digitless text = true -> extract_date text = None.
Proof.
  intros H. unfold extract_date.
  pose proof digit_bound_date_patterns as Hd.
  induction date_patterns as [|r rs IH]; simpl; [reflexivity|].
  inversion Hd as [|? ? Hr Hrs]; subst.
  unfold re_search_group1. rewrite search_from_digitless by assumption. now apply IH.
Qed.

(** X3 on a text of letters. *)
Lemma X3_thank_you : extract_date (s2l "thank you") = None.
Proof.
  apply X3_no_digit_no_date. reflexivity.
Defined.

(** *** Items *)

Lemma attempt_punct (p : nat) (c : ascii) (s : str) :
  attempt punct_re p (c :: s) =
  if not_word_or_space c then Some (MState (p + 1) s None) else None.
Proof.
  unfold attempt, punct_re, one. simpl. now destruct (not_word_or_space c).
Qed.

Lemma sub_punct_chars (s : str) :
  forall skip p, forallb word_or_space (sub_from punct_re (s2l " ") skip p s) = true.
Proof.
  induction s as [|c s IH]; intros skip p.
  - destruct skip; [|reflexivity]. reflexivity.
  - destruct skip; cbn [sub_from]; [|apply IH].
    rewrite attempt_punct. destruct (not_word_or_space c) eqn:Hc.
    + cbn [pos]. replace (p + 1 =? p) with false by (symmetry; apply Nat.eqb_neq; lia).
      simpl. apply IH.
    + simpl. rewrite IH, andb_true_r. unfold not_word_or_space in Hc.
      now apply negb_false_iff in Hc.
Qed.

Lemma strip_forallb (P : ascii -> bool) (s : str) :
  forallb P s = true -> forallb P (strip s) = true.
Proof.
  rewrite !forallb_forall. intros H c Hc. apply H. now apply strip_in.
Qed.

Lemma item_name_clean (line : str) :
  forallb word_or_space (item_name_of line) = true /\ trimmed (item_name_of line).
Proof.
  split; [|apply strip_trimmed].
  apply strip_forallb. apply sub_punct_chars.
Qed.

(** What holds of the item of every line holds of every collected item. *)
Lemma collect_items_forall (P : Item -> Prop) (lines : list str) :
  (forall line q, In line lines ->
     nonempty (re_findall price_re line) = true ->
     2 < length (item_name_of line) ->
     float (last (re_findall price_re line) []) = Some q ->
     P (MkItem (item_name_of line) q)) ->
  forall acc its, Forall P acc -> collect_items lines acc = Ok its -> Forall P its.
Proof.
  induction lines as [|line lines IH]; intros HP acc its Hacc; cbn [collect_items].
  - now intros [= <-].
  - assert (HP' : forall l q, In l lines ->
              nonempty (re_findall price_re l) = true -> 2 < length (item_name_of l) ->
              float (last (re_findall price_re l) []) = Some q ->
              P (MkItem (item_name_of l) q)).
    { intros l q Hl. apply HP. now right. }
    destruct (nonempty (re_findall price_re line)) eqn:Hm; [|now apply IH].
    fold (item_name_of line).
    destruct (nonempty (item_name_of line) && (2 <? length (item_name_of line))) eqn:Hn;
      [|now apply IH].
    destruct (float (last (re_findall price_re line) [])) as [q|] eqn:Hf; [|discriminate].
    apply IH; [exact HP'|]. apply Forall_app. split; [exact Hacc|].
    constructor; [|constructor]. apply HP; try assumption; [now left|].
    apply andb_true_iff in Hn as [_ Hn]. now apply Nat.ltb_lt in Hn.
Qed.

Lemma extract_items_forall (P : Item -> Prop) (lines : list str) :
  (forall line q, In line lines ->
     nonempty (re_findall price_re line) = true ->
     2 < length (item_name_of line) ->
     float (last (re_findall price_re line) []) = Some q ->
     P (MkItem (item_name_of line) q)) ->
  exists its, extract_items lines = Ok its /\ Forall P its.
Proof.
  intros HP. destruct (extract_items_ok lines) as [its [E _]].
  exists its. split; [exact E|].
  unfold extract_items in E.
  destruct (collect_items lines []) as [all|] eqn:Ec; [|discriminate].
  injection E as <-.
  pose proof (collect_items_forall P lines HP [] all (Forall_nil _) Ec) as H.
  rewrite Forall_forall in *. intros it Hit. apply H.
  rewrite <- (firstn_skipn 10 all). apply in_app_iff. now left.
Qed.

(** X4: every name ItemExtractor returns is made of word characters and
    whitespace only, and has no whitespace at either end. *)
Theorem X4_item_names_are_clean (lines : list str) :
  exists its,
    extract_items lines = Ok its /\
    Forall (fun it => forallb word_or_space (name it) = true /\ trimmed (name it)) its.
Proof.
  apply extract_items_forall. intros line q _ _ _ _. simpl. apply item_name_clean.
Qed.

Lemma findall_groups_of (r : regex) (P : str -> str -> Prop) :
  (forall p s m, attempt r p s = Some m -> P s (group1 m)) ->
  (forall c s g, P s g -> P (c :: s) g) ->
  forall s skip p, Forall (P s) (findall_from r skip p s).
Proof.
  intros H Hc. induction s as [|c s IH]; intros skip p.
  - destruct skip; simpl; [|constructor].
    destruct (attempt r p []) eqn:E; constructor; eauto.
  - assert (L : forall sk q, Forall (P (c :: s)) (findall_from r sk q s)).
    { intros sk q. eapply Forall_impl; [|apply IH]. intros g. apply Hc. }
    destruct skip; simpl; [|apply L].
    destruct (attempt r p (c :: s)) eqn:E; [constructor; eauto|apply L].
Qed.

Lemma infix_cons (c : ascii) (s g : str) : infix g s -> infix g (c :: s).
Proof.
  intros [pre [post ->]]. now exists (c :: pre), post.
Qed.

Lemma attempt_price_re_infix (p : nat) (s : str) (m : mstate) :
  attempt price_re p s = Some m -> infix (group1 m) s.
Proof.
  unfold attempt, price_re. intros H. apply hd_error_in in H.
  apply in_run_seq in H as [s1 [H1 H]].
  apply run_consumes in H1 as [k [_ [_ R1]]]. simpl in R1.
  simpl in H. apply in_map_iff in H as [s2 [<- H]].
  apply run_decimal2 in H as [w [_ [R P]]].
  unfold group1. simpl. rewrite R, P.
  replace (pos s1 + length w - pos s1) with (length w + 0) by lia.
  rewrite firstn_app_2. simpl. rewrite app_nil_r.
  exists (firstn k s), (rest s2). rewrite <- R, R1. now rewrite firstn_skipn.
Qed.

(** X5: the price of every item is the value of a token of digits, a point
    and two digits that stands in one of the lines. *)
Theorem X5_price_comes_from_a_line (lines : list str) :
  exists its,
    extract_items lines = Ok its /\
    Forall (fun it => exists line tok,
              In line lines /\ infix tok line /\ decimal2_token tok /\
              float tok = Some (price it)) its.
Proof.
  apply extract_items_forall. intros line q Hline Hm _ Hf.
  exists line, (last (re_findall price_re line) []). simpl.
  pose proof (findall_groups_of price_re (fun s g => infix g s /\ decimal2_token g)) as HF.
  assert (HL : Forall (fun g => infix g line /\ decimal2_token g) (re_findall price_re line)).
  { apply HF.
    - intros p s m Hat. split; [now apply attempt_price_re_infix in Hat|].
      now apply attempt_price_re in Hat.
    - intros c s g [Hi Hd]. split; [now apply infix_cons|exact Hd]. }
  rewrite Forall_forall in HL. destruct (HL _ (last_in _ [] Hm)) as [Hi Hd].
  repeat split; assumption.
Qed.

Lemma collect_items_from (lines : list str) :
  forall acc,
  collect_items lines acc =
  match collect_items lines [] with
  | Ok new => Ok (acc ++ new)
  | Raise e => Raise e
  end.
Proof.
  induction lines as [|line lines IH]; intros acc; cbn [collect_items].
  - now rewrite app_nil_r.
  - destruct (nonempty (re_findall price_re line)); [|apply IH].
    match goal with
    | |- context [if ?b then _ else _] => destruct b; [|apply IH]
    end.
    destruct (float (last (re_findall price_re line) [])) as [q|]; [|reflexivity].
    rewrite IH. rewrite (IH ([] ++ _)).
    destruct (collect_items lines []); [|reflexivity].
    now rewrite <- app_assoc.
Qed.

Lemma collect_items_app (l1 l2 : list str) :
  forall acc,
  collect_items (l1 ++ l2) acc =
  match collect_items l1 acc with
  | Ok a => collect_items l2 a
  | Raise e => Raise e
  end.
Proof.
  induction l1 as [|line l1 IH]; intros acc; cbn [collect_items app]; [reflexivity|].
  destruct (nonempty (re_findall price_re line)); [|apply IH].
  match goal with
  | |- context [if ?b then _ else _] => destruct b; [|apply IH]
  end.
  destruct (float (last (re_findall price_re line) [])) as [q|]; [|reflexivity].
  apply IH.
Qed.

Lemma collect_items_length (lines : list str) :
  forall acc its,
  collect_items lines acc = Ok its -> length its <= length acc + length lines.
Proof.
  induction lines as [|line lines IH]; intros acc its; cbn [collect_items].
  - intros [= <-]. simpl. lia.
  - destruct (nonempty (re_findall price_re line));
      [|intros H; apply IH in H; simpl; lia].
    match goal with
    | |- context [if ?b then _ else _] =>
        destruct b; [|intros H; apply IH in H; simpl; lia]
    end.
    destruct (float (last (re_findall price_re line) [])) as [q|]; [|discriminate].
    intros H. apply IH in H. rewrite length_app in H. simpl in *. lia.
Qed.

(** X6: a line gives at most one item, and lines that follow never change
    the items of the lines before them: the items of [l1] are the first
    items of [l1 ++ l2]. *)
Theorem X6_items_follow_the_lines (l1 l2 : list str) :
  exists e1 e,
    extract_items l1 = Ok e1 /\
    extract_items (l1 ++ l2) = Ok e /\
    firstn (length e1) e = e1 /\
    length e1 <= length l1.
Proof.
  destruct (collect_items_ok l1 [] (Forall_nil _)) as [i1 [E1 _]].
  destruct (collect_items_ok l2 [] (Forall_nil _)) as [i2 [E2 _]].
  exists (firstn 10 i1), (firstn 10 (i1 ++ i2)).
  unfold extract_items. rewrite collect_items_app, E1, collect_items_from, E2.
  split; [reflexivity|]. split; [reflexivity|].
  apply collect_items_length in E1. simpl in E1. split.
  - rewrite firstn_firstn, length_firstn.
    destruct (Nat.le_gt_cases (length i1) 10) as [Hle|Hgt].
    + rewrite (firstn_all2 (n := 10) i1) by exact Hle.
      replace (Nat.min (Nat.min 10 (length i1)) 10) with (length i1 + 0) by lia.
      rewrite firstn_app_2. simpl. now rewrite app_nil_r.
    + replace (Nat.min (Nat.min 10 (length i1)) 10) with 10 by lia.
      rewrite firstn_app. replace (10 - length i1) with 0 by lia.
      simpl. now rewrite app_nil_r.
  - rewrite length_firstn. lia.
Qed.

(** *** Merchant and category *)

(** X7: the merchant has at least 3 characters, and it is the sentinel or
    one of the first five lines as it stands. *)
Theorem X7_merchant_is_a_line (lines : list str) :
  3 <= length (extract_merchant lines) /\
  (extract_merchant lines = unknown_merchant \/
   In (extract_merchant lines) (firstn 5 lines)).
Proof.
  unfold extract_merchant. induction (firstn 5 lines) as [|line rest IH]; simpl.
  - split; [vm_compute; lia|now left].
  - assert (Hrest : 3 <= length (first_merchant rest) /\
                    (first_merchant rest = unknown_merchant \/
                     line = first_merchant rest \/ In (first_merchant rest) rest))
      by (destruct IH as [H1 [H2|H2]]; auto).
    destruct (is_some (re_match leading_date_re line)); simpl; [exact Hrest|].
    destruct (length line <? 3) eqn:E; [exact Hrest|].
    destruct (is_some (re_match pure_numeric_re line)); [exact Hrest|].
    apply Nat.ltb_ge in E. split; [exact E|]. right. now left.
Qed.

Lemma lower_char_idem (c : ascii) : lower_char (lower_char c) = lower_char c.
Proof.
  destruct c as [[] [] [] [] [] [] [] []]; reflexivity.
Qed.

Lemma lower_idem (s : str) : lower (lower s) = lower s.
Proof.
  unfold lower. rewrite map_map. apply map_ext. apply lower_char_idem.
Qed.

(** X8: the amount and the category do not depend on the case of the
    letters: lowering the text, or the merchant, leaves them as they are. *)
Theorem X8_case_does_not_matter (text m : str) (its : list Item) :
  extract_amount (lower text) = extract_amount text /\
  determine_category (lower m) its = determine_category m its.
Proof.
  split.
  - unfold extract_amount, extract_amount_with, collect_amounts. now rewrite lower_idem.
  - unfold determine_category. rewrite lower_idem.
    now destruct m.
Qed.

(** *** The recognition service and the parse route *)

Section PipelineFacts.
Variable Image : Type.
Variable size : Image -> nat.
Variable imdecode : list Byte.byte -> exc (option Image).
Variable enhance : Image -> exc Image.
Variable image_to_string : Image -> exc str.

Lemma parse_expense_data_ok (text : str) : exists d, parse_expense_data text = Ok d.
Proof.
  unfold parse_expense_data.
  destruct (extract_items_ok (lines_of text)) as [its [-> _]]. eexists. reflexivity.
Qed.

(** A success of the service carries the record of its recognized text. *)
Lemma ocr_success_parsed (file : UploadFile) :
  let r := fst (ocr_parse_receipt Image size imdecode enhance image_to_string file) in
  success r = true ->
  exists d, parsed_data r = Some d /\ parse_expense_data (raw_text r) = Ok d /\ error r = None.
Proof.
  unfold ocr_parse_receipt.
  destruct (read_image_safely Image size imdecode file) as [[image|] t1]; simpl;
    [|discriminate].
  destruct (image_to_string _) as [text|e]; simpl; [|discriminate].
  destruct (parse_expense_data text) as [d|e] eqn:E; simpl; [|discriminate].
  intros _. now exists d.
Qed.
End PipelineFacts.

(** X9: once the image is read and the recognizer has returned a text, the
    service succeeds and the route returns, whatever the text: the record is
    the one of the text, and the text is returned as it was recognized. *)
Theorem X9_recognized_text_succeeds
    (Image : Type) (size : Image -> nat) (imdecode : list Byte.byte -> exc (option Image))
    (enhance : Image -> exc Image) (image_to_string : Image -> exc str)
    (file : UploadFile) (image : Image) (text : str) :
  is_image_type file = true ->
  fst (read_image_safely Image size imdecode file) = Some image ->
  image_to_string (fst (preprocess_image Image enhance image)) = Ok text ->
  exists d,
    parse_expense_data text = Ok d /\
    fst (ocr_parse_receipt Image size imdecode enhance image_to_string file) =
      MkOcrResult true None text (Some d) /\
    fst (parse_receipt Image size imdecode enhance image_to_string file) =
      Returned text (Some d) (s2l "Receipt parsed successfully").
Proof.
  intros Htype Hread Hocr. destruct (parse_expense_data_ok text) as [d Hd].
  exists d. split; [exact Hd|].
  assert (E : fst (ocr_parse_receipt Image size imdecode enhance image_to_string file) =
              MkOcrResult true None text (Some d)).
  { unfold ocr_parse_receipt.
    destruct (read_image_safely Image size imdecode file) as [im t1]. simpl in Hread. subst im.
    destruct (preprocess_image Image enhance image) as [pim t2]. simpl in Hocr.
    now rewrite Hocr, Hd. }
  split; [exact E|].
  unfold parse_receipt. rewrite Htype. simpl.
  destruct (ocr_parse_receipt Image size imdecode enhance image_to_string file) as [r t].
  simpl in E. subst r. reflexivity.
Qed.

(** X9 on a file that decodes, with a recognizer that returns "TOTAL 1.00". *)
Lemma X9_total_line :
  exists d,
    parse_expense_data (s2l "TOTAL 1.00") = Ok d /\
    fst (ocr_parse_receipt unit (fun _ => 1) (fun _ => Ok (Some tt)) (fun i => Ok i)
           (fun _ => Ok (s2l "TOTAL 1.00")) (MkUpload (Some (s2l "image/png")) [])) =
      MkOcrResult true None (s2l "TOTAL 1.00") (Some d) /\
    fst (parse_receipt unit (fun _ => 1) (fun _ => Ok (Some tt)) (fun i => Ok i)
           (fun _ => Ok (s2l "TOTAL 1.00")) (MkUpload (Some (s2l "image/png")) [])) =
      Returned (s2l "TOTAL 1.00") (Some d) (s2l "Receipt parsed successfully").
Proof.
  apply (X9_recognized_text_succeeds unit (fun _ => 1) (fun _ => Ok (Some tt))
           (fun i => Ok i) (fun _ => Ok (s2l "TOTAL 1.00"))
           (MkUpload (Some (s2l "image/png")) []) tt (s2l "TOTAL 1.00")); reflexivity.
Defined.

(** X10: the service never returns a partial record: a success has a record
    and no error; a failure has an error, no record and an empty text. *)
Theorem X10_no_partial_record
    (Image : Type) (size : Image -> nat) (imdecode : list Byte.byte -> exc (option Image))
    (enhance : Image -> exc Image) (image_to_string : Image -> exc str)
    (file : UploadFile) :
  let r := fst (ocr_parse_receipt Image size imdecode enhance image_to_string file) in
  (success r = true /\ error r = None /\ parsed_data r <> None) \/
  (success r = false /\ error r <> None /\ parsed_data r = None /\ raw_text r = []).
Proof.
  unfold ocr_parse_receipt.
  destruct (read_image_safely Image size imdecode file) as [[image|] t1]; simpl;
    [|right; now repeat split].
  destruct (image_to_string _) as [text|e]; simpl; [|right; now repeat split].
  destruct (parse_expense_data text) as [d|e]; simpl; [left|right]; now repeat split.
Qed.

(** X11: a failure of the enhancement is absorbed: the service then behaves
    as if the enhancement had returned the image unchanged. *)
Theorem X11_enhancement_failure_is_absorbed
    (Image : Type) (size : Image -> nat) (imdecode : list Byte.byte -> exc (option Image))
    (enhance : Image -> exc Image) (image_to_string : Image -> exc str)
    (file : UploadFile) (image : Image) (e : str) :
  fst (read_image_safely Image size imdecode file) = Some image ->
  enhance image = Raise e ->
  ocr_parse_receipt Image size imdecode enhance image_to_string file =
  ocr_parse_receipt Image size imdecode (fun i => Ok i) image_to_string file.
Proof.
  intros Hread He. unfold ocr_parse_receipt.
  destruct (read_image_safely Image size imdecode file) as [im t1]. simpl in Hread. subst im.
  unfold preprocess_image. now rewrite He.
Qed.

(** X11 with an enhancement that always raises. *)
Lemma X11_enhancement_raises :
  ocr_parse_receipt unit (fun _ => 1) (fun _ => Ok (Some tt))
    (fun _ => Raise (s2l "bad channel layout")) (fun _ => Ok (s2l "TOTAL 1.00"))
    (MkUpload (Some (s2l "image/png")) []) =
  ocr_parse_receipt unit (fun _ => 1) (fun _ => Ok (Some tt)) (fun i => Ok i)
    (fun _ => Ok (s2l "TOTAL 1.00")) (MkUpload (Some (s2l "image/png")) []).
Proof.
  apply (X11_enhancement_failure_is_absorbed unit (fun _ => 1) (fun _ => Ok (Some tt))
           (fun _ => Raise (s2l "bad channel layout")) (fun _ => Ok (s2l "TOTAL 1.00"))
           (MkUpload (Some (s2l "image/png")) []) tt (s2l "bad channel layout"));
    reflexivity.
Defined.

(** X12: when the bytes cannot be read as an image (the decoder returns
    nothing, raises, or gives an image of size 0), the service fails with
    "Could not read image file", the route answers 400 with that text, and
    neither the enhancement nor the recognizer is called. *)
Theorem X12_unreadable_image
    (Image : Type) (size : Image -> nat) (imdecode : list Byte.byte -> exc (option Image))
    (enhance : Image -> exc Image) (image_to_string : Image -> exc str)
    (file : UploadFile) :
  is_image_type file = true ->
  (imdecode (contents file) = Ok None \/
   (exists e, imdecode (contents file) = Raise e) \/
   (exists image, imdecode (contents file) = Ok (Some image) /\ size image = 0)) ->
  ocr_parse_receipt Image size imdecode enhance image_to_string file =
    (MkOcrResult false (Some (s2l "Could not read image file")) [] None,
     [FileRead; ImDecode]) /\
  parse_receipt Image size imdecode enhance image_to_string file =
    (HTTPException 400 (s2l "Could not read image file"), [FileRead; ImDecode]).
Proof.
  intros Htype H.
  assert (E : ocr_parse_receipt Image size imdecode enhance image_to_string file =
              (MkOcrResult false (Some (s2l "Could not read image file")) [] None,
               [FileRead; ImDecode])).
  { unfold ocr_parse_receipt, read_image_safely.
    destruct H as [->|[[e ->]|[image [-> Hs]]]]; try reflexivity.
    now rewrite Hs. }
  split; [exact E|]. unfold parse_receipt. now rewrite Htype, E.
Qed.

(** X12 on a decoder that returns nothing. *)
Lemma X12_not_an_image_file :
  ocr_parse_receipt unit (fun _ => 1) (fun _ => Ok None) (fun i => Ok i)
    (fun _ => Ok (s2l "TOTAL 1.00")) (MkUpload (Some (s2l "image/png")) []) =
    (MkOcrResult false (Some (s2l "Could not read image file")) [] None,
     [FileRead; ImDecode]) /\
  parse_receipt unit (fun _ => 1) (fun _ => Ok None) (fun i => Ok i)
    (fun _ => Ok (s2l "TOTAL 1.00")) (MkUpload (Some (s2l "image/png")) []) =
    (HTTPException 400 (s2l "Could not read image file"), [FileRead; ImDecode]).
Proof.
  apply X12_unreadable_image; [reflexivity|]. left. reflexivity.
Defined.

(** *** Saving a receipt as an expense *)

Lemma str_eqb_eq (a b : str) : str_eqb a b = true <-> a = b.
Proof.
  revert b. induction a as [|x a IH]; intros [|y b]; simpl; split; try easy.
  - intros H. apply andb_true_iff in H as [Hx H]. unfold ascii_eqb in Hx.
    apply Ascii.eqb_eq in Hx. apply IH in H. now subst.
  - intros [= -> ->]. unfold ascii_eqb. rewrite Ascii.eqb_refl. now apply IH.
Qed.

Lemma str_eqb_neq (a b : str) : a <> b -> str_eqb a b = false.
Proof.
  intros H. destruct (str_eqb a b) eqn:E; [|reflexivity].
  apply str_eqb_eq in E. contradiction.
Qed.

Lemma s2l_inj (a b : string) : s2l a = s2l b -> a = b.
Proof.
  unfold s2l. intros H.
  rewrite <- (string_of_list_ascii_of_string a), <- (string_of_list_ascii_of_string b).
  now rewrite H.
Qed.

Lemma str_of_nat_inj (n m : nat) : str_of_nat n = str_of_nat m -> n = m.
Proof.
  unfold str_of_nat. intros H. apply s2l_inj in H.
  assert (E : Some (Nat.to_uint n) = Some (Nat.to_uint m)).
  { rewrite <- !NilEmpty.usu. now rewrite H. }
  injection E as E.
  rewrite <- (Unsigned.of_to n), <- (Unsigned.of_to m). now rewrite E.
Qed.

Lemma numbered_app (db : list Row) (exp : Row) :
  numbered db -> row_id exp = next_id db -> numbered (db ++ [exp]).
Proof.
  intros Hdb Hid i e Hi.
  destruct (Nat.lt_ge_cases i (length db)) as [Hlt|Hge].
  - rewrite nth_error_app1 in Hi by exact Hlt. now apply Hdb.
  - rewrite nth_error_app2 in Hi by exact Hge.
    destruct (i - length db) as [|k] eqn:Ek; simpl in Hi.
    + injection Hi as <-. rewrite Hid. unfold next_id.
      replace (length db + 1) with (i + 1) by lia. reflexivity.
    + now destruct k.
Qed.

Lemma numbered_nodup (db : list Row) : numbered db -> NoDup (map row_id db).
Proof.
  intros H. apply NoDup_nth_error. intros i j Hi E.
  rewrite length_map in Hi. rewrite !nth_error_map in E.
  destruct (nth_error db i) as [ei|] eqn:Ei.
  - destruct (nth_error db j) as [ej|] eqn:Ej; [|discriminate].
    simpl in E. injection E as E.
    rewrite (H i ei Ei), (H j ej Ej) in E. apply app_inv_head in E.
    apply str_of_nat_inj in E. lia.
  - apply nth_error_None in Ei. lia.
Qed.

Lemma extract_amount_range (text : str) (a : Q) :
  extract_amount text = Some a -> (0.01 <= a)%Q /\ (a <= 10000)%Q.
Proof.
  unfold extract_amount, extract_amount_with.
  destruct (collect_amounts Q float Qle_bool 0.01%Q 10000%Q text) as [|x l] eqn:E;
    [discriminate|].
  intros [= <-].
  assert (Hc : candidate Q float Qle_bool 0.01%Q 10000%Q text (py_max Q Qle_bool x l)).
  { apply collect_amounts_candidate. rewrite E. apply py_max_in. }
  destruct Hc as [_ [_ [_ [_ [_ Hr]]]]]. unfold reasonable in Hr.
  apply andb_true_iff in Hr as [H1 H2]. now rewrite !Qle_bool_iff in *.
Qed.

Lemma parse_expense_data_amount (text : str) (d : ParsedData) :
  parse_expense_data text = Ok d ->
  amount d = extract_amount text /\ date d = extract_date text.
Proof.
  unfold parse_expense_data. destruct (extract_items (lines_of text)); [|discriminate].
  now intros [= <-].
Qed.

(** X13: the saving route changes the list only when it answers that the
    expense was saved, and then it appends one expense: its identifier is
    "exp_" and the new length of the list, its user the caller, its amount
    the extracted one (between 0.01 and 10000), its date the extracted one
    (absent when the text has none) and its source "receipt_ocr". *)
Theorem X13_saving_appends_one_expense
    (Image : Type) (size : Image -> nat) (imdecode : list Byte.byte -> exc (option Image))
    (enhance : Image -> exc Image) (image_to_string : Image -> exc str)
    (file : UploadFile) (user_id now : str) (expenses_db : list Row) :
  match parse_and_save_receipt Image size imdecode enhance image_to_string
          file user_id now expenses_db with
  | (Saved expense_id e raw d _, db', _) =>
      db' = expenses_db ++ [FromReceipt e] /\
      expense_id = s2l "exp_" ++ str_of_nat (length db') /\
      Receipt.id e = expense_id /\
      Receipt.user_id e = user_id /\
      parse_expense_data raw = Ok d /\
      extract_amount raw = Some (Receipt.amount e) /\
      (0.01 <= Receipt.amount e)%Q /\ (Receipt.amount e <= 10000)%Q /\
      Receipt.date e = extract_date raw /\
      Receipt.merchant e = merchant d /\
      Receipt.items e = items d /\
      Receipt.source e = s2l "receipt_ocr" /\
      Receipt.created_at e = now
  | (_, db', _) => db' = expenses_db
  end.
Proof.
  unfold parse_and_save_receipt.
  destruct (negb (is_image_type file)); [reflexivity|].
  pose proof (ocr_success_parsed Image size imdecode enhance image_to_string file) as Hs.
  destruct (ocr_parse_receipt Image size imdecode enhance image_to_string file) as [r t].
  simpl in Hs.
  destruct (success r); simpl; [|reflexivity].
  destruct (Hs eq_refl) as [d [Hp [Hd _]]]. rewrite Hp. unfold truthy_amount.
  destruct (amount d) as [a|] eqn:Ha; [|reflexivity].
  destruct (Qeq_bool a 0); [reflexivity|].
  apply parse_expense_data_amount in Hd as Hf. destruct Hf as [Hamt Hdate].
  rewrite Ha in Hamt. symmetry in Hamt.
  destruct (extract_amount_range _ _ Hamt) as [Hlo Hhi].
  simpl. rewrite length_app. simpl. unfold next_id.
  repeat split; try assumption; try reflexivity.
Qed.

(** X14: when no amount can be extracted from the recognized text, nothing
    is saved: the route returns the message "Could not extract amount from
    receipt" with the text and the record, and the list is unchanged. *)
Theorem X14_no_amount_nothing_saved
    (Image : Type) (size : Image -> nat) (imdecode : list Byte.byte -> exc (option Image))
    (enhance : Image -> exc Image) (image_to_string : Image -> exc str)
    (file : UploadFile) (user_id now : str) (expenses_db : list Row)
    (image : Image) (text : str) :
  is_image_type file = true ->
  fst (read_image_safely Image size imdecode file) = Some image ->
  image_to_string (fst (preprocess_image Image enhance image)) = Ok text ->
  extract_amount text = None ->
  exists d t,
    parse_expense_data text = Ok d /\
    parse_and_save_receipt Image size imdecode enhance image_to_string
      file user_id now expenses_db =
    (NotSaved (s2l "Could not extract amount from receipt") text (Some d), expenses_db, t).
Proof.
  intros Htype Hread Hocr Hnone. destruct (parse_expense_data_ok text) as [d Hd].
  exists d. unfold parse_and_save_receipt. rewrite Htype. simpl.
  assert (E : fst (ocr_parse_receipt Image size imdecode enhance image_to_string file) =
              MkOcrResult true None text (Some d)).
  { unfold ocr_parse_receipt.
    destruct (read_image_safely Image size imdecode file) as [im t1]. simpl in Hread. subst im.
    destruct (preprocess_image Image enhance image) as [pim t2]. simpl in Hocr.
    now rewrite Hocr, Hd. }
  destruct (ocr_parse_receipt Image size imdecode enhance image_to_string file) as [r t].
  simpl in E. subst r. exists t. split; [exact Hd|]. simpl.
  apply parse_expense_data_amount in Hd as [Ha _]. now rewrite Ha, Hnone.
Qed.

(** X14 on a recognized text without a digit. *)
Lemma X14_thank_you :
  exists d t,
    parse_expense_data (s2l "thank you") = Ok d /\
    parse_and_save_receipt unit (fun _ => 1) (fun _ => Ok (Some tt)) (fun i => Ok i)
      (fun _ => Ok (s2l "thank you")) (MkUpload (Some (s2l "image/png")) [])
      (s2l "u1") (s2l "2024-01-15T10:00:00") [] =
    (NotSaved (s2l "Could not extract amount from receipt") (s2l "thank you") (Some d),
     [], t).
Proof.
  apply (X14_no_amount_nothing_saved unit (fun _ => 1) (fun _ => Ok (Some tt))
           (fun i => Ok i) (fun _ => Ok (s2l "thank you"))
           (MkUpload (Some (s2l "image/png")) []) (s2l "u1") (s2l "2024-01-15T10:00:00")
           [] tt (s2l "thank you")); reflexivity.
Defined.

(** X15: the saving route keeps the identifiers in line with the positions
    of the list (the i-th expense is "exp_i"), so after it no two expenses
    of the list share an identifier. *)
Theorem X15_saving_keeps_identifiers_distinct
    (Image : Type) (size : Image -> nat) (imdecode : list Byte.byte -> exc (option Image))
    (enhance : Image -> exc Image) (image_to_string : Image -> exc str)
    (file : UploadFile) (user_id now : str) (expenses_db : list Row) :
  numbered expenses_db ->
  let db' := snd (fst (parse_and_save_receipt Image size imdecode enhance image_to_string
                         file user_id now expenses_db)) in
  numbered db' /\ NoDup (map row_id db').
Proof.
  intros Hn.
  assert (H : numbered (snd (fst (parse_and_save_receipt Image size imdecode enhance
                                    image_to_string file user_id now expenses_db)))).
  { unfold parse_and_save_receipt.
    destruct (negb (is_image_type file)); [exact Hn|].
    destruct (ocr_parse_receipt Image size imdecode enhance image_to_string file) as [r t].
    destruct (negb (success r)); [exact Hn|].
    destruct (truthy_amount (parsed_data r)) as [a|]; [|exact Hn].
    destruct (parsed_data r) as [d|]; [|exact Hn].
    simpl. now apply numbered_app. }
  split; [exact H|]. now apply numbered_nodup.
Qed.

(** X15 on the empty list. *)
Lemma X15_first_saved_expense :
  let db' := snd (fst (parse_and_save_receipt unit (fun _ => 1) (fun _ => Ok (Some tt))
                         (fun i => Ok i) (fun _ => Ok (s2l "TOTAL 1.00"))
                         (MkUpload (Some (s2l "image/png")) [])
                         (s2l "u1") (s2l "2024-01-15T10:00:00") [])) in
  numbered db' /\ NoDup (map row_id db').
Proof.
  apply X15_saving_keeps_identifiers_distinct.
  intros i exp H. destruct i; discriminate H.
Defined.

(** *** The expenses routes *)

(** X16: creating an expense appends it to what its user lists, whose count
    grows by one, and leaves what every other user lists unchanged. *)
Theorem X16_created_expense_is_listed
    (DateTime : Type) (isoformat : DateTime -> str)
    (expense : Create.t DateTime) (user_id other : str) (now : DateTime)
    (expenses_db : list Row) :
  other <> user_id ->
  let '((expense_id, e), db') := create_expense DateTime isoformat expense user_id now
                                   expenses_db in
  get_expenses user_id db' =
    (fst (get_expenses user_id expenses_db) ++ [FromForm e],
     snd (get_expenses user_id expenses_db) + 1) /\
  get_expenses other db' = get_expenses other expenses_db.
Proof.
  intros Hne. unfold create_expense, get_expenses. simpl. split.
  - rewrite filter_app. simpl.
    replace (str_eqb user_id user_id) with true by (symmetry; now apply str_eqb_eq).
    rewrite length_app. reflexivity.
  - rewrite filter_app. simpl.
    rewrite (str_eqb_neq user_id other) by (intros E; now apply Hne).
    now rewrite app_nil_r.
Qed.

(** X16 for the users "u1" and "u2" on the empty list. *)
Lemma X16_first_expense_of_u1 :
  let '((expense_id, e), db') :=
    create_expense unit (fun _ => s2l "2024-01-15T10:00:00")
      (Create.Make 12.50%Q (s2l "Lunch") FOOD (inr (s2l "2024-01-15"))) (s2l "u1") tt [] in
  get_expenses (s2l "u1") db' =
    (fst (get_expenses (s2l "u1") []) ++ [FromForm e],
     snd (get_expenses (s2l "u1") []) + 1) /\
  get_expenses (s2l "u2") db' = get_expenses (s2l "u2") [].
Proof.
  apply (X16_created_expense_is_listed unit (fun _ => s2l "2024-01-15T10:00:00")
           (Create.Make 12.50%Q (s2l "Lunch") FOOD (inr (s2l "2024-01-15")))
           (s2l "u1") (s2l "u2") tt []).
  vm_compute. discriminate.
Defined.

(** X17: what a user lists is made of the expenses of the list that carry
    the user's identifier, the count is their number, and the listing of a
    list in two parts is the listing of the first part followed by the
    listing of the second. *)
Theorem X17_listing_is_per_user (user_id : str) (pre post : list Row) :
  let (user_expenses, count) := get_expenses user_id (pre ++ post) in
  count = length user_expenses /\
  (forall exp, In exp user_expenses <->
               In exp (pre ++ post) /\ row_user_id exp = user_id) /\
  user_expenses = fst (get_expenses user_id pre) ++ fst (get_expenses user_id post).
Proof.
  unfold get_expenses. simpl. split; [reflexivity|]. split.
  - intros exp. rewrite filter_In. now rewrite str_eqb_eq.
  - apply filter_app.
Qed.

(** X18: creating an expense keeps the identifiers in line with the
    positions of the list, so after it no two expenses share an identifier;
    the identifier returned is the one of the stored expense. *)
Theorem X18_creating_keeps_identifiers_distinct
    (DateTime : Type) (isoformat : DateTime -> str)
    (expense : Create.t DateTime) (user_id : str) (now : DateTime)
    (expenses_db : list Row) :
  numbered expenses_db ->
  let '((expense_id, e), db') := create_expense DateTime isoformat expense user_id now
                                   expenses_db in
  numbered db' /\ NoDup (map row_id db') /\
  Form.id e = expense_id /\ expense_id = s2l "exp_" ++ str_of_nat (length db').
Proof.
  intros Hn. unfold create_expense.
  assert (H : numbered (expenses_db ++
              [FromForm (Form.Make (next_id expenses_db) user_id (Create.amount expense)
                           (Create.description expense) (value (Create.category expense))
                           (date_text DateTime isoformat (Create.date expense))
                           (isoformat now))])).
  { now apply numbered_app. }
  split; [exact H|]. split; [now apply numbered_nodup|]. split; [reflexivity|].
  rewrite length_app. reflexivity.
Qed.

(** X18 on the empty list. *)
Lemma X18_first_created_expense :
  let '((expense_id, e), db') :=
    create_expense unit (fun _ => s2l "2024-01-15T10:00:00")
      (Create.Make 12.50%Q (s2l "Lunch") FOOD (inr (s2l "2024-01-15"))) (s2l "u1") tt [] in
  numbered db' /\ NoDup (map row_id db') /\
  Form.id e = expense_id /\ expense_id = s2l "exp_" ++ str_of_nat (length db').
Proof.
  apply (X18_creating_keeps_identifiers_distinct unit (fun _ => s2l "2024-01-15T10:00:00")
           (Create.Make 12.50%Q (s2l "Lunch") FOOD (inr (s2l "2024-01-15"))) (s2l "u1") tt []).
  intros i exp H. destruct i; discriminate H.
Defined.

(** *** The authenticated user *)

Lemma find_user_some (users : list (str * User.t)) (user_id : str) (u : User.t) :
  find_user users user_id = Some u ->
  User.id u = user_id /\ exists email, In (email, u) users.
Proof.
  induction users as [|[email x] users IH]; simpl; [discriminate|].
  destruct (str_eqb (User.id x) user_id) eqn:E.
  - intros [= <-]. apply str_eqb_eq in E. split; [exact E|]. exists email. now left.
  - intros H. apply IH in H as [H1 [em H2]]. split; [exact H1|]. exists em. now right.
Qed.

Lemma find_user_none (users : list (str * User.t)) (user_id : str) :
  find_user users user_id = None ->
  forall email u, In (email, u) users -> User.id u <> user_id.
Proof.
  induction users as [|[em x] users IH]; simpl; [easy|].
  destruct (str_eqb (User.id x) user_id) eqn:E; [discriminate|].
  intros H email u [[= <- <-]|Hin].
  - intros Heq. apply str_eqb_eq in Heq. congruence.
  - now apply IH with email.
Qed.

(** X19: the user the dependency gives a route is a stored user whose
    identifier is the "user_id" of the verified token.  An [HTTPException]
    raised by [verify_token] is passed on as it is; every other refusal has
    status 401: "Invalid authentication credentials" when [verify_token]
    raises another exception or the token has no "user_id", and "User not
    found" when the token is verified and no stored user has its
    identifier. *)
Theorem X19_current_user_is_the_token_user
    (verify_token : str -> verified)
    (users_db : list (str * User.t)) (credentials : str) :
  match get_current_user verify_token users_db credentials with
  | Allowed u =>
      exists token_data email,
        verify_token credentials = TokenData token_data /\
        dict_get token_data (s2l "user_id") = Some (User.id u) /\
        In (email, u) users_db
  | Denied status_code detail =>
      verify_token credentials = RaisedHTTP status_code detail \/
      (status_code = 401 /\ detail = s2l "Invalid authentication credentials" /\
       ((exists e, verify_token credentials = RaisedOther e) \/
        (exists token_data,
           verify_token credentials = TokenData token_data /\
           dict_get token_data (s2l "user_id") = None))) \/
      (status_code = 401 /\ detail = s2l "User not found" /\
       exists token_data user_id,
         verify_token credentials = TokenData token_data /\
         dict_get token_data (s2l "user_id") = Some user_id /\
         forall email u, In (email, u) users_db -> User.id u <> user_id)
  end.
Proof.
  unfold get_current_user.
  destruct (verify_token credentials) as [td|sc detail|e] eqn:Ev.
  - destruct (dict_get td (s2l "user_id")) as [uid|] eqn:Ed.
    + destruct (find_user users_db uid) as [u|] eqn:Ef.
      * apply find_user_some in Ef as [Hid [email Hin]].
        exists td, email. rewrite Hid. now repeat split.
      * right. right. repeat split. exists td, uid. repeat split; try assumption.
        now apply find_user_none.
    + right. left. repeat split. right. now exists td.
  - now left.
  - right. left. repeat split. left. now exists e.
Qed.
